(** * Sparkify ETL ([etl.py]): a shallow embedding and its properties

    The pipeline reads song files and log files, projects their records
    into rows of a star schema and hands the rows to a PostgreSQL cursor.
    The embedding follows [etl.py]: data frames are tables of cells, the
    cursor, the connection, the file reader and [print] are effects threaded
    through a state-and-exception monad that keeps a trace of every call. *)

From Stdlib Require Import ZArith List String Bool Lia QArith.
Import ListNotations.
Local Open Scope string_scope.
Local Open Scope list_scope.
Local Open Scope Z_scope.

(** ** Cells, exceptions, data frames *)

(** The Python objects a cell of a data frame (or a statement parameter)
    can hold: [None]/[NaN], integers, floats, strings, and the two forms of
    a [datetime64[ns]] cell, a [Timestamp] (nanoseconds since the epoch) and
    [NaT]. *)
Inductive value : Type :=
| VNone
| VInt (z : Z)
| VFloat (q : Q)
| VStr (s : string)
| VTimestamp (ns : Z)
| VNaT.

(** The exceptions the program can meet. *)
Inductive error : Type :=
| KeyError (key : string)
| AttributeError (name : string)
| IndexError
| ValueError
| OutOfBoundsDatetime
| OSError (path : string)
| DatabaseError (code : Z).

Inductive outcome (A : Type) : Type :=
| Ok (a : A)
| Raise (e : error).
Arguments Ok {A} a.
Arguments Raise {A} e.

Definition obind {A B : Type} (o : outcome A) (k : A -> outcome B) : outcome B :=
  match o with
  | Ok a => k a
  | Raise e => Raise e
  end.

(** A data frame as [pd.read_json(..., lines=True)] delivers it: the column
    labels and one list of cells per record, in file order. *)
Record DataFrame : Type := mkDataFrame {
  columns : list string;
  rows : list (list value)
}.

(** Position of a label among the columns. *)
Fixpoint column_index (label : string) (labels : list string) : option nat :=
  match labels with
  | [] => None
  | l :: ls =>
      if String.eqb label l then Some O
      else option_map S (column_index label ls)
  end.

Definition cell (pos : nat) (row : list value) : value := nth pos row VNone.

(** [df[label]]: the column as a series; [KeyError] when it is absent. *)
Definition get_column (label : string) (df : DataFrame) : outcome (list value) :=
  match column_index label (columns df) with
  | Some pos => Ok (map (cell pos) (rows df))
  | None => Raise (KeyError label)
  end.

(** Positions of a list of labels, or the first absent label. *)
Fixpoint column_indices (labels : list string) (have : list string)
  : outcome (list nat) :=
  match labels with
  | [] => Ok []
  | l :: ls =>
      match column_index l have with
      | Some pos => obind (column_indices ls have) (fun ps => Ok (pos :: ps))
      | None => Raise (KeyError l)
      end
  end.

(** [df[[l1, ..., lk]]]: the sub-frame with these columns, in this order. *)
Definition select_columns (labels : list string) (df : DataFrame)
  : outcome DataFrame :=
  obind (column_indices labels (columns df)) (fun ps =>
    Ok (mkDataFrame labels (map (fun row => map (fun p => cell p row) ps) (rows df)))).

(** [df.values[0].tolist()]: the cells of the first record; [IndexError]
    on a frame without records.  The two selections of this program hold the
    identifiers, which are strings, so the array is of dtype [object] and
    the cells are handed on as they are. *)
Definition values_0_tolist (df : DataFrame) : outcome (list value) :=
  match rows df with
  | r :: _ => Ok r
  | [] => Raise IndexError
  end.

(** [df[mask]]: the records whose mask entry is true. *)
Fixpoint mask_rows (mask : list bool) (rs : list (list value)) : list (list value) :=
  match mask, rs with
  | b :: mask', r :: rs' => if b then r :: mask_rows mask' rs' else mask_rows mask' rs'
  | _, _ => []
  end.

Definition boolean_index (mask : list bool) (df : DataFrame) : DataFrame :=
  mkDataFrame (columns df) (mask_rows mask (rows df)).

(** [series == s]: elementwise comparison with a string. *)
Definition eq_str (s : string) (v : value) : bool :=
  match v with
  | VStr s' => String.eqb s' s
  | _ => false
  end.

Fixpoint set_nth (pos : nat) (v : value) (row : list value) : list value :=
  match pos, row with
  | O, _ :: row' => v :: row'
  | O, [] => [v]
  | S p, c :: row' => c :: set_nth p v row'
  | S p, [] => VNone :: set_nth p v []
  end.

Fixpoint zip_set (pos : nat) (series : list value) (rs : list (list value))
  : list (list value) :=
  match rs with
  | [] => []
  | r :: rs' =>
      match series with
      | v :: series' => set_nth pos v r :: zip_set pos series' rs'
      | [] => set_nth pos VNone r :: zip_set pos [] rs'
      end
  end.

(** [df[label] = series].  The series of this program always carry the index
    of the frame they are assigned to, so cells pair up by position.  A frame
    without records takes its records from the series, the other columns
    being filled with [NaN]; a new label is appended to the columns. *)
Definition set_column (label : string) (series : list value) (df : DataFrame)
  : DataFrame :=
  let labels :=
    match column_index label (columns df) with
    | Some _ => columns df
    | None => (columns df ++ [label])%list
    end in
  let pos :=
    match column_index label (columns df) with
    | Some p => p
    | None => List.length (columns df)
    end in
  match rows df with
  | [] =>
      mkDataFrame labels
        (map (fun v => set_nth pos v (repeat VNone (List.length labels))) series)
  | rs => mkDataFrame labels (zip_set pos series rs)
  end.

(** [row.name] on a record yielded by [iterrows]. *)
Definition row_attr (name : string) (labels : list string) (row : list value)
  : outcome value :=
  match column_index name labels with
  | Some pos => Ok (cell pos row)
  | None => Raise (AttributeError name)
  end.

(** ** Calendar fields of a [datetime64[ns]] cell

    [Series.dt] reads the fields of the proleptic Gregorian calendar in UTC
    off the nanosecond count: no time zone is attached to the column.
    Divisions are floor divisions, so instants before 1970 are covered. *)

Definition ns_per_ms : Z := 1000000.
Definition ns_per_hour : Z := 3600000000000.
Definition ns_per_day : Z := 86400000000000.

Definition days_of_ns (ns : Z) : Z := ns / ns_per_day.

(** Day of the 400-year era, counted from 1 March. *)
Definition doe_of_days (days : Z) : Z := (days + 719468) mod 146097.
Definition era_of_days (days : Z) : Z := (days + 719468) / 146097.

Definition yoe_of_doe (doe : Z) : Z :=
  (doe - doe / 1460 + doe / 36524 - doe / 146096) / 365.

Definition doy_of_doe (doe : Z) : Z :=
  let yoe := yoe_of_doe doe in
  doe - (365 * yoe + yoe / 4 - yoe / 100).

Definition mp_of_doe (doe : Z) : Z := (5 * doy_of_doe doe + 2) / 153.

Definition month_of_days (days : Z) : Z :=
  let mp := mp_of_doe (doe_of_days days) in
  if mp <? 10 then mp + 3 else mp - 9.

Definition day_of_days (days : Z) : Z :=
  let doe := doe_of_days days in
  doy_of_doe doe - (153 * mp_of_doe doe + 2) / 5 + 1.

Definition year_of_days (days : Z) : Z :=
  let y := yoe_of_doe (doe_of_days days) + era_of_days days * 400 in
  if month_of_days days <=? 2 then y + 1 else y.

(** Monday is 0; 1 January 1970 was a Thursday. *)
Definition dayofweek_of_days (days : Z) : Z := (days + 3) mod 7.

Definition hour_of_ns (ns : Z) : Z := (ns / ns_per_hour) mod 24.

(** A field accessor applied to one cell; [NaT] gives [NaN]. *)
Definition dt_field (f : Z -> Z) (v : value) : value :=
  match v with
  | VTimestamp ns => VInt (f ns)
  | _ => VNone
  end.

Definition dt_hour : value -> value := dt_field hour_of_ns.
Definition dt_day : value -> value := dt_field (fun ns => day_of_days (days_of_ns ns)).
Definition dt_dayofweek : value -> value :=
  dt_field (fun ns => dayofweek_of_days (days_of_ns ns)).
Definition dt_month : value -> value := dt_field (fun ns => month_of_days (days_of_ns ns)).
Definition dt_year : value -> value := dt_field (fun ns => year_of_days (days_of_ns ns)).
(** [Series.dt.weekday] is the same accessor as [Series.dt.dayofweek]. *)
Definition dt_weekday : value -> value := dt_dayofweek.

(** ** The collaborators *)

(** Modelled from the spec: the statements of [sql_queries], which is not
    among the sources; one insert per table of the storage contract and the
    song lookup. *)
Inductive query : Type :=
| song_table_insert
| artist_table_insert
| user_table_insert
| time_table_insert
| songplay_table_insert
| song_select.

Definition query_eqb (a b : query) : bool :=
  match a, b with
  | song_table_insert, song_table_insert
  | artist_table_insert, artist_table_insert
  | user_table_insert, user_table_insert
  | time_table_insert, time_table_insert
  | songplay_table_insert, songplay_table_insert
  | song_select, song_select => true
  | _, _ => false
  end.

(** What the program runs against: the database behind the cursor and the
    connection, the files, and the part of [pd.to_datetime] that is not
    spelled out below.  Every operation may raise. *)
Class Env : Type := {
  store : Type;
  (** [cur.execute(query, params)] *)
  db_execute : query -> list value -> store -> outcome unit * store;
  (** [cur.fetchone()]: the next row of the last result, or [None] *)
  db_fetchone : store -> outcome (option (list value)) * store;
  (** [conn.commit()] *)
  db_commit : store -> outcome unit * store;
  (** [pd.read_json(filepath, lines=True)] *)
  read_json : string -> outcome DataFrame;
  (** the [*.json] files below a directory, as [os.walk] and [glob] list them *)
  walk_json : string -> list string;
  (** [pd.to_datetime(_, unit='ms')] on a cell that is neither an integer
      nor null (a float, a string, ...) *)
  to_datetime_other : value -> outcome value
}.

(** ** [pd.to_datetime(series, unit='ms')] *)

Definition ms_min : Z := -9223372036854.
Definition ms_max : Z := 9223372036854.
Definition int64_min : Z := -9223372036854775808.

(** One cell.  An integer is scaled to nanoseconds; the result must fit the
    [datetime64[ns]] range, else [OutOfBoundsDatetime].  The smallest 64-bit
    integer is the missing-value mark and becomes [NaT], as does a null. *)
Definition to_datetime_ms `{Env} (v : value) : outcome value :=
  match v with
  | VInt z =>
      if z =? int64_min then Ok VNaT
      else if (ms_min <=? z) && (z <=? ms_max) then Ok (VTimestamp (z * ns_per_ms))
      else Raise OutOfBoundsDatetime
  | VNone => Ok VNaT
  | VNaT => Ok VNaT
  | VTimestamp ns => Ok (VTimestamp ns)
  | other => to_datetime_other other
  end.

Fixpoint to_datetime `{Env} (series : list value) : outcome (list value) :=
  match series with
  | [] => Ok []
  | v :: vs =>
      obind (to_datetime_ms v) (fun d =>
      obind (to_datetime vs) (fun ds => Ok (d :: ds)))
  end.

(** ** Effects: a session with its trace *)

Inductive message : Type :=
| FilesFound (num_files : nat) (filepath : string)
| FilesProcessed (i num_files : nat).

(** Every call that leaves the program, in the order it is made. *)
Inductive event : Type :=
| EvRead (filepath : string)
| EvExecute (q : query) (params : list value)
| EvFetchone
| EvCommit
| EvPrint (m : message).

Record session `{Env} : Type := mkSession {
  db : store;
  trace : list event
}.
Arguments mkSession {_} db trace.

(** A computation either returns or raises, and in both cases leaves the
    session in the state it had reached. *)
Definition M `{Env} (A : Type) : Type := session -> outcome A * session.

Definition ret `{Env} {A : Type} (a : A) : M A := fun s => (Ok a, s).

Definition bind `{Env} {A B : Type} (c : M A) (k : A -> M B) : M B :=
  fun s =>
    match c s with
    | (Ok a, s') => k a s'
    | (Raise e, s') => (Raise e, s')
    end.

Definition lift `{Env} {A : Type} (o : outcome A) : M A := fun s => (o, s).

Declare Scope etl_scope.
Delimit Scope etl_scope with etl.
Notation "x <- c ;; k" := (bind c (fun x => k))
  (at level 61, c at next level, right associativity) : etl_scope.
Notation "c ;; k" := (bind c (fun _ => k))
  (at level 61, right associativity) : etl_scope.
Local Open Scope etl_scope.

Definition log `{Env} (e : event) (s : session) : session :=
  mkSession (db s) (trace s ++ [e]).

Definition cur_execute `{Env} (q : query) (params : list value) : M unit :=
  fun s =>
    let s1 := log (EvExecute q params) s in
    let '(r, d) := db_execute q params (db s1) in
    (r, mkSession d (trace s1)).

Definition cur_fetchone `{Env} : M (option (list value)) :=
  fun s =>
    let s1 := log EvFetchone s in
    let '(r, d) := db_fetchone (db s1) in
    (r, mkSession d (trace s1)).

Definition conn_commit `{Env} : M unit :=
  fun s =>
    let s1 := log EvCommit s in
    let '(r, d) := db_commit (db s1) in
    (r, mkSession d (trace s1)).

Definition pd_read_json `{Env} (filepath : string) : M DataFrame :=
  fun s => (read_json filepath, log (EvRead filepath) s).

Definition print `{Env} (m : message) : M unit :=
  fun s => (Ok tt, log (EvPrint m) s).

(** [for x in xs: body(x)] *)
Fixpoint for_each `{Env} {A : Type} (xs : list A) (body : A -> M unit) : M unit :=
  match xs with
  | [] => ret tt
  | x :: xs' => body x ;; for_each xs' body
  end.

(** [for i, x in enumerate(xs, start): body(i, x)] *)
Fixpoint for_enumerate `{Env} {A : Type} (start : nat) (xs : list A)
  (body : nat -> A -> M unit) : M unit :=
  match xs with
  | [] => ret tt
  | x :: xs' => body start x ;; for_enumerate (S start) xs' body
  end.

(** ** [process_song_file] *)

Definition song_columns : list string :=
  ["song_id"; "title"; "artist_id"; "year"; "duration"].
Definition artist_columns : list string :=
  ["artist_id"; "artist_name"; "artist_location"; "artist_latitude";
   "artist_longitude"].

(** The part of [process_song_file] after the file is opened. *)
Definition process_song_frame `{Env} (df : DataFrame) : M unit :=
  sel <- lift (select_columns song_columns df) ;;
  song_data <- lift (values_0_tolist sel) ;;
  cur_execute song_table_insert song_data ;;
  sel <- lift (select_columns artist_columns df) ;;
  artist_data <- lift (values_0_tolist sel) ;;
  cur_execute artist_table_insert artist_data.

Definition process_song_file `{Env} (filepath : string) : M unit :=
  df <- pd_read_json filepath ;;
  process_song_frame df.

(** ** [process_log_file] *)

(** Lines 46 to 49: keep the [NextSong] events, convert their [ts]. *)
Definition filter_and_convert `{Env} (df : DataFrame) : outcome DataFrame :=
  obind (get_column "page" df) (fun page =>
  let df := boolean_index (map (eq_str "NextSong") page) df in
  obind (get_column "ts" df) (fun ts =>
  obind (to_datetime ts) (fun ts' =>
  Ok (set_column "ts" ts' df)))).

Definition column_labels : list string :=
  ["start_time"; "hour"; "day"; "week"; "month"; "year"; "weekday"].

(** Line 53: the seven series the time table is assembled from. *)
Definition time_data (ts : list value) : list (list value) :=
  [ts; map dt_hour ts; map dt_day ts; map dt_dayofweek ts; map dt_month ts;
   map dt_year ts; map dt_weekday ts].

Fixpoint enumerate {A : Type} (start : nat) (xs : list A) : list (nat * A) :=
  match xs with
  | [] => []
  | x :: xs' => (start, x) :: enumerate (S start) xs'
  end.

(** Lines 53 to 58: [time_df], filled column by column. *)
Definition build_time_df (t : DataFrame) : outcome DataFrame :=
  obind (get_column "ts" t) (fun ts =>
  let time_data := time_data ts in
  let time_df := mkDataFrame column_labels [] in
  Ok (fold_left
        (fun time_df '(index, column_label) =>
           set_column column_label (nth index time_data []) time_df)
        (enumerate 0 column_labels) time_df)).

Definition user_columns : list string :=
  ["userId"; "firstName"; "lastName"; "gender"; "level"].

(** Lines 74 to 77: a row that is not empty is unpacked into two names, which
    raises [ValueError] unless it has two fields; [None] and the empty row
    give two nulls. *)
Definition unpack_results (results : option (list value))
  : outcome (value * value) :=
  match results with
  | None | Some [] => Ok (VNone, VNone)
  | Some [songid; artistid] => Ok (songid, artistid)
  | Some _ => Raise ValueError
  end.

(** Lines 70 to 81: the body of the songplay loop for one record. *)
Definition songplay_record `{Env} (labels : list string) (row : list value)
  : M unit :=
  song <- lift (row_attr "song" labels row) ;;
  artist <- lift (row_attr "artist" labels row) ;;
  length <- lift (row_attr "length" labels row) ;;
  cur_execute song_select [song; artist; length] ;;
  results <- cur_fetchone ;;
  ids <- lift (unpack_results results) ;;
  let '(songid, artistid) := ids in
  ts <- lift (row_attr "ts" labels row) ;;
  userId <- lift (row_attr "userId" labels row) ;;
  level <- lift (row_attr "level" labels row) ;;
  sessionId <- lift (row_attr "sessionId" labels row) ;;
  location <- lift (row_attr "location" labels row) ;;
  userAgent <- lift (row_attr "userAgent" labels row) ;;
  cur_execute songplay_table_insert
    [ts; userId; level; songid; artistid; sessionId; location; userAgent].

(** The part of [process_log_file] after the file is opened.  [time_df] is
    built and not used again. *)
Definition process_log_frame `{Env} (df : DataFrame) : M unit :=
  df <- lift (filter_and_convert df) ;;
  let t := df in
  time_df <- lift (build_time_df t) ;;
  user_df <- lift (select_columns user_columns df) ;;
  for_each (rows user_df) (fun row => cur_execute user_table_insert row) ;;
  for_each (rows df) (songplay_record (columns df)).

Definition process_log_file `{Env} (filepath : string) : M unit :=
  df <- pd_read_json filepath ;;
  process_log_frame df.

(** ** [process_data] *)

(** Lines 115 to 117: the body of the loop over the files. *)
Definition process_unit `{Env} (func : string -> M unit) (num_files : nat)
  (i : nat) (datafile : string) : M unit :=
  func datafile ;;
  conn_commit ;;
  print (FilesProcessed i num_files).

Definition process_data `{Env} (filepath : string) (func : string -> M unit)
  : M unit :=
  let all_files := walk_json filepath in
  let num_files := List.length all_files in
  print (FilesFound num_files filepath) ;;
  for_enumerate 1 all_files (process_unit func num_files).


(** ** Observations on a trace *)

(** The parameter lists handed to the cursor with statement [q]. *)
Fixpoint submitted (q : query) (tr : list event) : list (list value) :=
  match tr with
  | [] => []
  | EvExecute q' params :: tr' =>
      if query_eqb q q' then params :: submitted q tr' else submitted q tr'
  | _ :: tr' => submitted q tr'
  end.

(** The files opened, in order. *)
Fixpoint files_read (tr : list event) : list string :=
  match tr with
  | [] => []
  | EvRead f :: tr' => f :: files_read tr'
  | _ :: tr' => files_read tr'
  end.

(** Calls on the cursor: what a unit's rows are submitted through. *)
Definition is_cursor_call (e : event) : bool :=
  match e with
  | EvExecute _ _ | EvFetchone => true
  | _ => false
  end.

(** The events with [page == "NextSong"] in a log frame. *)
Definition next_song_rows (df : DataFrame) : list (list value) :=
  match column_index "page" (columns df) with
  | Some pos => filter (fun row => eq_str "NextSong" (cell pos row)) (rows df)
  | None => []
  end.

Definition is_null (v : value) : bool :=
  match v with
  | VNone => true
  | _ => false
  end.

(** ** The ISO week, for comparison

    The week number of ISO 8601, which the [week] column is named after:
    weeks start on Monday and week 1 is the week holding the year's first
    Thursday.  It is not computed anywhere in [etl.py]. *)

Definition days_from_civil (y m d : Z) : Z :=
  let y' := if m <=? 2 then y - 1 else y in
  let era := y' / 400 in
  let yoe := y' - era * 400 in
  let mp := if 2 <? m then m - 3 else m + 9 in
  let doy := (153 * mp + 2) / 5 + d - 1 in
  let doe := yoe * 365 + yoe / 4 - yoe / 100 + doy in
  era * 146097 + doe - 719468.

Definition iso_week_of_days (days : Z) : Z :=
  let thursday := days - dayofweek_of_days days + 3 in
  (thursday - days_from_civil (year_of_days thursday) 1 1) / 7 + 1.

Definition iso_week_of_ns (ns : Z) : Z := iso_week_of_days (days_of_ns ns).

(** ** A small installation to run the program on

    An in-memory database with the song and artist tables, answering the
    song lookup by title, artist name and duration; three files on disk. *)

Module Sample.

Definition value_eqb (a b : value) : bool :=
  match a, b with
  | VNone, VNone | VNaT, VNaT => true
  | VInt x, VInt y => x =? y
  | VFloat x, VFloat y => Qeq_bool x y
  | VStr x, VStr y => String.eqb x y
  | VTimestamp x, VTimestamp y => x =? y
  | _, _ => false
  end.

Record tables : Type := mkTables {
  songs : list (list value);
  artists : list (list value);
  result : option (string * string);
  commits : nat
}.

(** The first song of the given title and duration whose artist carries the
    given name, as the pair of their identifiers; identifiers are strings. *)
Fixpoint lookup_song_artist (title artist duration : value)
  (ss aa : list (list value)) : option (string * string) :=
  match ss with
  | [] => None
  | s :: ss' =>
      match
        (if value_eqb (cell 1 s) title && value_eqb (cell 4 s) duration
         then find (fun a => value_eqb (cell 0 a) (cell 2 s)
                             && value_eqb (cell 1 a) artist) aa
         else None)
      with
      | Some a =>
          match cell 0 s, cell 0 a with
          | VStr song_id, VStr artist_id => Some (song_id, artist_id)
          | _, _ => lookup_song_artist title artist duration ss' aa
          end
      | None => lookup_song_artist title artist duration ss' aa
      end
  end.

Definition execute (q : query) (params : list value) (t : tables)
  : outcome unit * tables :=
  match q with
  | song_table_insert =>
      (Ok tt, mkTables (songs t ++ [params]) (artists t) (result t) (commits t))
  | artist_table_insert =>
      (Ok tt, mkTables (songs t) (artists t ++ [params]) (result t) (commits t))
  | song_select =>
      (Ok tt, mkTables (songs t) (artists t)
                (lookup_song_artist (cell 0 params) (cell 1 params) (cell 2 params)
                   (songs t) (artists t))
                (commits t))
  | _ => (Ok tt, t)
  end.

Definition fetchone (t : tables) : outcome (option (list value)) * tables :=
  (Ok (option_map (fun ids => [VStr (fst ids); VStr (snd ids)]) (result t)),
   mkTables (songs t) (artists t) None (commits t)).

Definition commit (t : tables) : outcome unit * tables :=
  (Ok tt, mkTables (songs t) (artists t) (result t) (S (commits t))).

Definition song_file : string := "data/song_data/A/TRA.json".
Definition song_file_2 : string := "data/song_data/B/TRB.json".
Definition log_file : string := "data/log_data/2018/11/2018-11-12-events.json".

Definition song_labels : list string :=
  ["artist_id"; "artist_latitude"; "artist_location"; "artist_longitude";
   "artist_name"; "duration"; "num_songs"; "song_id"; "title"; "year"].

(** One record, as in the first scenario of the specification. *)
Definition song_frame : DataFrame :=
  mkDataFrame song_labels
    [[VStr "ARA"; VFloat (3521 # 100); VStr "Memphis, TN"; VFloat (-(9003 # 100));
      VStr "Artist1"; VFloat (361 # 2); VInt 1; VStr "SOA"; VStr "T1"; VInt 2000]].

(** Two records in one file. *)
Definition song_frame_2 : DataFrame :=
  mkDataFrame song_labels
    [[VStr "ARB"; VNone; VStr ""; VNone;
      VStr "Artist2"; VFloat (2183 # 10); VInt 1; VStr "SOB"; VStr "T2"; VInt 0];
     [VStr "ARC"; VNone; VStr ""; VNone;
      VStr "Artist3"; VFloat (100 # 1); VInt 1; VStr "SOC"; VStr "T3"; VInt 1999]].

Definition log_labels : list string :=
  ["artist"; "firstName"; "gender"; "lastName"; "length"; "level"; "location";
   "page"; "sessionId"; "song"; "ts"; "userAgent"; "userId"].

(** Three events: a play that is in the song table, a page view, and a play
    that is not. *)
Definition log_frame : DataFrame :=
  mkDataFrame log_labels
    [[VStr "Artist1"; VStr "Ann"; VStr "F"; VStr "Lee"; VFloat (361 # 2);
      VStr "free"; VStr "Memphis, TN"; VStr "NextSong"; VInt 7; VStr "T1";
      VInt 1541990258796; VStr "Mozilla"; VInt 10];
     [VNone; VStr "Ann"; VStr "F"; VStr "Lee"; VNone;
      VStr "free"; VStr "Memphis, TN"; VStr "Home"; VInt 7; VNone;
      VInt 1541990264796; VStr "Mozilla"; VInt 10];
     [VStr "Artist9"; VStr "Bob"; VStr "M"; VStr "Ray"; VFloat (1806 # 10);
      VStr "paid"; VStr "Austin, TX"; VStr "NextSong"; VInt 8; VStr "T1";
      VInt 1541990439796; VStr "Safari"; VInt 11]].

#[local] Instance env : Env := {|
  store := tables;
  db_execute := execute;
  db_fetchone := fetchone;
  db_commit := commit;
  read_json := fun filepath =>
    if String.eqb filepath song_file then Ok song_frame
    else if String.eqb filepath song_file_2 then Ok song_frame_2
    else if String.eqb filepath log_file then Ok log_frame
    else Raise (OSError filepath);
  walk_json := fun filepath =>
    if String.eqb filepath "data/song_data" then [song_file; song_file_2]
    else if String.eqb filepath "data/log_data" then [log_file]
    else if String.eqb filepath "data" then [song_file; log_file; song_file_2]
    else [];
  to_datetime_other := fun _ => Raise ValueError
|}.

Definition fresh : session := mkSession (mkTables [] [] None 0) [].

(** The session once the song files are loaded. *)
Definition loaded : session :=
  snd (process_data "data/song_data" process_song_file fresh).

End Sample.


(** ** What a run appends to the trace *)

(** The events one pass of a loop body may append, by its result. *)
Definition body_trace (A : Type) : Type := A -> outcome unit -> list event -> Prop.

(** The events a [for] loop appends: the passes that returned, then possibly
    one that raised, which ends the loop. *)
Inductive loop_trace {A : Type} (B : body_trace A)
  : list A -> outcome unit -> list event -> Prop :=
| loop_done : loop_trace B [] (Ok tt) []
| loop_raise x xs e evs :
    B x (Raise e) evs -> loop_trace B (x :: xs) (Raise e) evs
| loop_next x xs r evs1 evs2 :
    B x (Ok tt) evs1 -> loop_trace B xs r evs2 ->
    loop_trace B (x :: xs) r (evs1 ++ evs2).

(** One pass of the user loop. *)
Definition user_trace : body_trace (list value) :=
  fun row _ evs => evs = [EvExecute user_table_insert row].

(** One pass of the songplay loop: it stops before the lookup, after it,
    after the fetch, or submits the fact row with the identifiers unpacked
    from the row some state of the database returned. *)
Inductive songplay_trace `{Env} : body_trace (list value) :=
| sp_no_lookup row e : songplay_trace row (Raise e) []
| sp_lookup_raised row p e :
    songplay_trace row (Raise e) [EvExecute song_select p]
| sp_fetch_raised row p e :
    songplay_trace row (Raise e) [EvExecute song_select p; EvFetchone]
| sp_submitted row p d results songid artistid ts userId level sessionId
    location userAgent r :
    fst (db_fetchone d) = Ok results ->
    unpack_results results = Ok (songid, artistid) ->
    songplay_trace row r
      [EvExecute song_select p; EvFetchone;
       EvExecute songplay_table_insert
         [ts; userId; level; songid; artistid; sessionId; location; userAgent]].

(** The events [process_log_frame] appends. *)
Inductive log_trace `{Env} (df : DataFrame) : outcome unit -> list event -> Prop :=
| log_mapping_raised e : log_trace df (Raise e) []
| log_users_raised df' user_df e evs :
    filter_and_convert df = Ok df' ->
    select_columns user_columns df' = Ok user_df ->
    loop_trace user_trace (rows user_df) (Raise e) evs ->
    log_trace df (Raise e) evs
| log_songplays df' user_df r evs1 evs2 :
    filter_and_convert df = Ok df' ->
    select_columns user_columns df' = Ok user_df ->
    loop_trace user_trace (rows user_df) (Ok tt) evs1 ->
    loop_trace songplay_trace (rows df') r evs2 ->
    log_trace df r (evs1 ++ evs2).

(** The storage never rejects a statement, and a fetch hands back nothing,
    or a row of two fields. *)
Definition reliable `{Env} : Prop :=
  (forall q params d, fst (db_execute q params d) = Ok tt) /\
  (forall d, fst (db_commit d) = Ok tt) /\
  (forall d, exists results ids,
      fst (db_fetchone d) = Ok results /\ unpack_results results = Ok ids).

(** The lookup contract: a fetched row is a pair of identifiers, neither of
    them null. *)
Definition lookup_contract `{Env} : Prop :=
  forall d row,
    fst (db_fetchone d) = Ok (Some row) ->
    exists songid artistid,
      row = [songid; artistid] /\ is_null songid = false /\ is_null artistid = false.

(** A fact row carries both identifiers or neither. *)
Definition all_or_nothing (params : list value) : Prop :=
  exists ts userId level songid artistid sessionId location userAgent,
    params = [ts; userId; level; songid; artistid; sessionId; location; userAgent] /\
    ((is_null songid = false /\ is_null artistid = false) \/
     (songid = VNone /\ artistid = VNone)).

Definition has_columns (labels : list string) (df : DataFrame) : Prop :=
  forall l, In l labels -> column_index l (columns df) <> None.

Definition log_columns : list string :=
  ["page"; "ts"; "userId"; "firstName"; "lastName"; "gender"; "level"; "song";
   "artist"; "length"; "sessionId"; "location"; "userAgent"].


(** An integer timestamp the [datetime64[ns]] range can hold. *)
Definition ms_in_range (z : Z) : Prop := ms_min <= z <= ms_max.

(** A valid log unit: the thirteen fields are there and every [NextSong]
    event carries an integer [ts] within range. *)
Definition valid_log_unit (df : DataFrame) : Prop :=
  has_columns log_columns df /\
  Forall (fun row => exists z, row_attr "ts" (columns df) row = Ok (VInt z)
                               /\ ms_in_range z)
         (next_song_rows df).

(** The parameters of the two statements of the songplay loop, read off a
    record that has the fields. *)
Definition attr_or_null (name : string) (labels : list string) (row : list value)
  : value :=
  match row_attr name labels row with
  | Ok v => v
  | Raise _ => VNone
  end.

Definition lookup_params (labels : list string) (row : list value) : list value :=
  [attr_or_null "song" labels row; attr_or_null "artist" labels row;
   attr_or_null "length" labels row].

Definition fact_row (labels : list string) (row : list value)
  (songid artistid : value) : list value :=
  [attr_or_null "ts" labels row; attr_or_null "userId" labels row;
   attr_or_null "level" labels row; songid; artistid;
   attr_or_null "sessionId" labels row; attr_or_null "location" labels row;
   attr_or_null "userAgent" labels row].

(** Nothing but calls on the cursor. *)
Definition cursor_only (evs : list event) : Prop :=
  Forall (fun e => is_cursor_call e = true) evs.

(** The commits issued. *)
Fixpoint commits_issued (tr : list event) : nat :=
  match tr with
  | [] => O
  | EvCommit :: tr' => S (commits_issued tr')
  | _ :: tr' => commits_issued tr'
  end.

(** The trace of a run over [files] in which unit [k] submitted its rows
    through the cursor calls [segs[k]]: each unit is opened, its rows are
    submitted, one commit follows, and progress is reported, before the next
    unit is opened. *)
Fixpoint units_trace (i num_files : nat) (files : list string)
  (segs : list (list event)) : list event :=
  match files, segs with
  | f :: files', seg :: segs' =>
      (EvRead f :: seg) ++ [EvCommit; EvPrint (FilesProcessed i num_files)]
      ++ units_trace (S i) num_files files' segs'
  | _, _ => []
  end.



(** The row of the time table for one converted [ts] cell: (start_time,
    hour, day, week, month, year, weekday), each column as line 53 fills it. *)
Definition time_row (v : value) : list value :=
  [v; dt_hour v; dt_day v; dt_dayofweek v; dt_month v; dt_year v; dt_weekday v].

(** ** Further observations and a second installation *)

(** The lines printed, in order. *)
Fixpoint messages_printed (tr : list event) : list message :=
  match tr with
  | [] => []
  | EvPrint m :: tr' => m :: messages_printed tr'
  | _ :: tr' => messages_printed tr'
  end.

(** Every [fetchone] comes right after a [song_select]; [selected] tells
    whether the event before the list was one. *)
Fixpoint fetches_follow_selects (selected : bool) (tr : list event) : bool :=
  match tr with
  | [] => true
  | EvFetchone :: tr' => selected && fetches_follow_selects false tr'
  | EvExecute song_select _ :: tr' => fetches_follow_selects true tr'
  | _ :: tr' => fetches_follow_selects false tr'
  end.

(** The three cursor calls of one pass of the songplay loop that finds the
    identifiers [songid] and [artistid]. *)
Definition songplay_events (labels : list string) (row : list value)
  (songid artistid : value) : list event :=
  [EvExecute song_select (lookup_params labels row); EvFetchone;
   EvExecute songplay_table_insert (fact_row labels row songid artistid)].

(** One pass of the songplay loop appends the first [k] of its three calls,
    all three when it returns. *)
Definition songplay_steps (labels : list string) : body_trace (list value) :=
  fun row r evs =>
    exists songid artistid k,
      evs = firstn k (songplay_events labels row songid artistid) /\
      (r = Ok tt -> k = 3%nat).

(** The user row of a record: (userId, firstName, lastName, gender, level). *)
Definition user_row (cols : list string) (r : list value) : list value :=
  map (fun l => attr_or_null l cols r) user_columns.

(** A second installation: a storage that rejects a user row without a
    [userId] and finds no song, and files with defects. *)
Module Faulty.

Definition execute (q : query) (params : list value) (n : nat)
  : outcome unit * nat :=
  match q, params with
  | user_table_insert, VNone :: _ => (Raise (DatabaseError 23502), n)
  | _, _ => (Ok tt, S n)
  end.

Definition song_only_file : string := "data/song_data/A/song_only.json".
Definition empty_file : string := "data/song_data/A/empty.json".
Definition no_song_file : string := "data/log_data/no_song.json".
Definition bad_ts_file : string := "data/log_data/bad_ts.json".
Definition anonymous_file : string := "data/log_data/anonymous.json".
Definition home_file : string := "data/log_data/home.json".

(** A record with the song fields and none of the artist's own. *)
Definition song_only_frame : DataFrame :=
  mkDataFrame ["song_id"; "title"; "artist_id"; "year"; "duration"]
    [[VStr "SOA"; VStr "T1"; VStr "ARA"; VInt 2000; VFloat (361 # 2)]].

(** An empty file: no record, hence no column. *)
Definition empty_frame : DataFrame := mkDataFrame [] [].

(** Two plays without the fields of the song. *)
Definition no_song_frame : DataFrame :=
  mkDataFrame ["firstName"; "gender"; "lastName"; "level"; "page"; "ts"; "userId"]
    [[VStr "Ann"; VStr "F"; VStr "Lee"; VStr "free"; VStr "NextSong";
      VInt 1541990258796; VInt 10];
     [VStr "Bob"; VStr "M"; VStr "Ray"; VStr "paid"; VStr "NextSong";
      VInt 1541990439796; VInt 11]].

Definition event (artist song : string) (page : string) (ts : Z) (userId : value)
  : list value :=
  [VStr artist; VStr "Ann"; VStr "F"; VStr "Lee"; VFloat (361 # 2);
   VStr "free"; VStr "Memphis, TN"; VStr page; VInt 7; VStr song;
   VInt ts; VStr "Mozilla"; userId].

(** A play in 2018 and one whose [ts] is past the range of the column. *)
Definition bad_ts_frame : DataFrame :=
  mkDataFrame Sample.log_labels
    [event "Artist1" "T1" "NextSong" 1541990258796 (VInt 10);
     event "Artist1" "T1" "NextSong" 10000000000000000 (VInt 10)].

(** A play of a user and a play without [userId]. *)
Definition anonymous_frame : DataFrame :=
  mkDataFrame Sample.log_labels
    [event "Artist1" "T1" "NextSong" 1541990258796 (VInt 10);
     event "Artist1" "T1" "NextSong" 1541990439796 VNone].

(** Page views only. *)
Definition home_frame : DataFrame :=
  mkDataFrame Sample.log_labels
    [event "" "" "Home" 1541990258796 (VInt 10);
     event "" "" "Login" 1541990439796 VNone].

#[local] Instance env : Env := {|
  store := nat;
  db_execute := execute;
  db_fetchone := fun n => (Ok None, n);
  db_commit := fun n => (Ok tt, n);
  read_json := fun filepath =>
    if String.eqb filepath song_only_file then Ok song_only_frame
    else if String.eqb filepath empty_file then Ok empty_frame
    else if String.eqb filepath no_song_file then Ok no_song_frame
    else if String.eqb filepath bad_ts_file then Ok bad_ts_frame
    else if String.eqb filepath anonymous_file then Ok anonymous_frame
    else if String.eqb filepath home_file then Ok home_frame
    else if String.eqb filepath Sample.song_file then Ok Sample.song_frame
    else Raise (OSError filepath);
  walk_json := fun filepath =>
    if String.eqb filepath "data/song_data" then [Sample.song_file; song_only_file]
    else if String.eqb filepath "data/log_data" then [home_file; anonymous_file]
    else [];
  to_datetime_other := fun _ => Raise ValueError
|}.

Definition fresh : session := mkSession 0%nat [].

End Faulty.

(** A third installation: the lookup hands back rows of one field. *)
Module Narrow.

#[local] Instance env : Env := {|
  store := unit;
  db_execute := fun _ _ u => (Ok tt, u);
  db_fetchone := fun u => (Ok (Some [VStr "SOA"]), u);
  db_commit := fun u => (Ok tt, u);
  read_json := fun filepath =>
    if String.eqb filepath Sample.log_file then Ok Sample.log_frame
    else if String.eqb filepath Faulty.no_song_file then Ok Faulty.no_song_frame
    else Raise (OSError filepath);
  walk_json := fun _ => [];
  to_datetime_other := fun _ => Raise ValueError
|}.

Definition fresh : session := mkSession tt [].

End Narrow.

(** * Properties *)

Section Runs.
Context `{Env}.

Lemma submitted_app (q : query) (a b : list event) :
  submitted q (a ++ b) = submitted q a ++ submitted q b.
Proof.
  induction a as [|e a IH]; simpl; [reflexivity|].
  destruct e; auto. destruct (query_eqb q q0); simpl; congruence.
Qed.


Lemma cur_execute_run q params s r s' :
  cur_execute q params s = (r, s') ->
  trace s' = trace s ++ [EvExecute q params] /\
  r = fst (db_execute q params (db s)).
Proof.
  unfold cur_execute. simpl.
  destruct (db_execute q params (db s)) as [r0 d]. intros E.
  inversion E; subst; auto.
Qed.

Lemma cur_fetchone_run s r s' :
  cur_fetchone s = (r, s') ->
  trace s' = trace s ++ [EvFetchone] /\ r = fst (db_fetchone (db s)).
Proof.
  unfold cur_fetchone. simpl.
  destruct (db_fetchone (db s)) as [r0 d]. intros E.
  inversion E; subst; auto.
Qed.

Lemma conn_commit_run s r s' :
  conn_commit s = (r, s') ->
  trace s' = trace s ++ [EvCommit] /\ r = fst (db_commit (db s)).
Proof.
  unfold conn_commit. simpl.
  destruct (db_commit (db s)) as [r0 d]. intros E.
  inversion E; subst; auto.
Qed.

(** A loop appends what its passes append. *)
Lemma for_each_run {A : Type} (B : body_trace A) (body : A -> M unit) :
  (forall x s r s', body x s = (r, s') ->
     exists evs, trace s' = trace s ++ evs /\ B x r evs) ->
  forall xs s r s', for_each xs body s = (r, s') ->
    exists evs, trace s' = trace s ++ evs /\ loop_trace B xs r evs.
Proof.
  intros HB xs. induction xs as [|x xs IH]; intros s r s' E.
  - inversion E; subst. exists []. rewrite app_nil_r. split; [reflexivity|constructor].
  - simpl in E. unfold bind in E.
    destruct (body x s) as [[[]|e] s1] eqn:Eb.
    + destruct (HB _ _ _ _ Eb) as (evs1 & T1 & B1).
      destruct (IH _ _ _ E) as (evs2 & T2 & L2).
      exists (evs1 ++ evs2). split.
      * rewrite T2, T1, app_assoc. reflexivity.
      * now apply loop_next.
    + inversion E; subst.
      destruct (HB _ _ _ _ Eb) as (evs1 & T1 & B1).
      exists evs1. split; [assumption|]. now apply loop_raise.
Qed.

Lemma user_insert_run (row : list value) s r s' :
  cur_execute user_table_insert row s = (r, s') ->
  exists evs, trace s' = trace s ++ evs /\ user_trace row r evs.
Proof.
  intros E. apply cur_execute_run in E as [T _].
  exists [EvExecute user_table_insert row]. split; [assumption|reflexivity].
Qed.

Lemma songplay_record_run (labels : list string) (row : list value) s r s' :
  songplay_record labels row s = (r, s') ->
  exists evs, trace s' = trace s ++ evs /\ songplay_trace row r evs.
Proof.
  unfold songplay_record, bind, lift. intros E.
  destruct (row_attr "song" labels row) as [song|e];
    [|inversion E; subst; exists []; rewrite app_nil_r; split; [reflexivity|constructor]].
  destruct (row_attr "artist" labels row) as [artist|e];
    [|inversion E; subst; exists []; rewrite app_nil_r; split; [reflexivity|constructor]].
  destruct (row_attr "length" labels row) as [len|e];
    [|inversion E; subst; exists []; rewrite app_nil_r; split; [reflexivity|constructor]].
  destruct (cur_execute song_select [song; artist; len] s) as [[[]|e] s1] eqn:E1;
    apply cur_execute_run in E1 as [T1 _];
    [|inversion E; subst; eexists; split; [eassumption|constructor]].
  destruct (cur_fetchone s1) as [[results|e] s2] eqn:E2;
    apply cur_fetchone_run in E2 as [T2 R2];
    [|inversion E; subst; eexists; split;
      [rewrite T2, T1, <- app_assoc; reflexivity|constructor]].
  assert (Stop : forall e, (Raise (A:=unit) e, s2) = (r, s') ->
            exists evs, trace s' = trace s ++ evs /\ songplay_trace row r evs).
  { intros e Ee. inversion Ee; subst. eexists; split;
      [rewrite T2, T1, <- app_assoc; reflexivity|constructor]. }
  destruct (unpack_results results) as [[songid artistid]|e] eqn:EU; [|eauto].
  destruct (row_attr "ts" labels row) as [ts|e]; [|eauto].
  destruct (row_attr "userId" labels row) as [userId|e]; [|eauto].
  destruct (row_attr "level" labels row) as [level|e]; [|eauto].
  destruct (row_attr "sessionId" labels row) as [sessionId|e]; [|eauto].
  destruct (row_attr "location" labels row) as [location|e]; [|eauto].
  destruct (row_attr "userAgent" labels row) as [userAgent|e]; [|eauto].
  apply cur_execute_run in E as [T3 _].
  eexists. split.
  - rewrite T3, T2, T1, <- !app_assoc. reflexivity.
  - simpl. eapply sp_submitted; [symmetry; eassumption|eassumption].
Qed.

Lemma process_log_frame_run (df : DataFrame) s r s' :
  process_log_frame df s = (r, s') ->
  exists evs, trace s' = trace s ++ evs /\ log_trace df r evs.
Proof.
  unfold process_log_frame, bind, lift. intros E.
  assert (Stop : forall e, (Raise (A:=unit) e, s) = (r, s') ->
            exists evs, trace s' = trace s ++ evs /\ log_trace df r evs).
  { intros e Ee. inversion Ee; subst. exists []. rewrite app_nil_r.
    split; [reflexivity|constructor]. }
  destruct (filter_and_convert df) as [df'|e] eqn:EF; [|eauto].
  destruct (build_time_df df') as [time_df|e]; [|eauto].
  destruct (select_columns user_columns df') as [user_df|e] eqn:ES; [|eauto].
  destruct (for_each (rows user_df) (fun row => cur_execute user_table_insert row) s)
    as [[[]|e] s1] eqn:EL1.
  - apply (for_each_run user_trace) in EL1 as (evs1 & T1 & L1);
      [|intros; eapply user_insert_run; eassumption].
    apply (for_each_run songplay_trace) in E as (evs2 & T2 & L2);
      [|intros; eapply songplay_record_run; eassumption].
    exists (evs1 ++ evs2). split.
    + rewrite T2, T1, app_assoc. reflexivity.
    + eapply log_songplays; eassumption.
  - inversion E; subst.
    apply (for_each_run user_trace) in EL1 as (evs1 & T1 & L1);
      [|intros; eapply user_insert_run; eassumption].
    exists evs1. split; [assumption|]. eapply log_users_raised; eassumption.
Qed.

End Runs.

(** ** Frames: filtering and conversion *)

Section Frames.
Context `{Env}.

Lemma mask_rows_filter (f : list value -> bool) (rs : list (list value)) :
  mask_rows (map f rs) rs = filter f rs.
Proof.
  induction rs as [|r rs IH]; simpl; [reflexivity|].
  destruct (f r); congruence.
Qed.

Lemma boolean_index_next_song (df : DataFrame) (page : list value) :
  get_column "page" df = Ok page ->
  boolean_index (map (eq_str "NextSong") page) df
  = mkDataFrame (columns df) (next_song_rows df).
Proof.
  unfold get_column, next_song_rows, boolean_index.
  destruct (column_index "page" (columns df)) as [pos|]; [|discriminate].
  intros E. inversion E; subst. rewrite map_map.
  now rewrite (mask_rows_filter (fun row => eq_str "NextSong" (cell pos row))).
Qed.

Lemma to_datetime_length (series converted : list value) :
  to_datetime series = Ok converted -> List.length converted = List.length series.
Proof.
  revert converted. induction series as [|v vs IH]; simpl; intros converted E.
  - inversion E. reflexivity.
  - destruct (to_datetime_ms v); [|discriminate]. simpl in E.
    destruct (to_datetime vs); [|discriminate]. simpl in E.
    inversion E. simpl. now rewrite (IH _ eq_refl).
Qed.

Lemma zip_set_length (pos : nat) (series : list value) (rs : list (list value)) :
  List.length (zip_set pos series rs) = List.length rs.
Proof.
  revert series. induction rs as [|r rs IH]; intros series; simpl; [reflexivity|].
  destruct series; simpl; now rewrite IH.
Qed.

Lemma set_column_rows_length (label : string) (series : list value) (df : DataFrame) :
  List.length series = List.length (rows df) ->
  List.length (rows (set_column label series df)) = List.length (rows df).
Proof.
  unfold set_column. intros L. destruct (rows df) as [|r rs] eqn:R.
  - simpl. rewrite length_map. exact L.
  - simpl. destruct series; simpl; now rewrite zip_set_length.
Qed.

Lemma set_column_columns (label : string) (series : list value) (df : DataFrame) :
  column_index label (columns df) <> None ->
  columns (set_column label series df) = columns df.
Proof.
  unfold set_column. intros C.
  destruct (column_index label (columns df)); [|contradiction].
  now destruct (rows df).
Qed.

(** The frame the loops run over has the columns of the file and one record
    per [NextSong] event. *)
Lemma filter_and_convert_shape (df df' : DataFrame) :
  filter_and_convert df = Ok df' ->
  columns df' = columns df /\
  List.length (rows df') = List.length (next_song_rows df).
Proof.
  unfold filter_and_convert. intros E.
  destruct (get_column "page" df) as [page|] eqn:EP; [|discriminate]. simpl in E.
  rewrite (boolean_index_next_song _ _ EP) in E.
  destruct (get_column "ts" _) as [ts|] eqn:ET; [|discriminate]. simpl in E.
  destruct (to_datetime ts) as [ts'|] eqn:EC; [|discriminate]. simpl in E.
  inversion E; subst. clear E.
  apply to_datetime_length in EC.
  unfold get_column in ET. simpl in ET.
  destruct (column_index "ts" (columns df)) eqn:CI; [|discriminate].
  inversion ET; subst. rewrite length_map in EC.
  split.
  - rewrite set_column_columns; simpl; congruence.
  - rewrite set_column_rows_length; simpl; auto.
Qed.

(** Records with another [page] leave no mark: two frames with the same
    columns and the same [NextSong] events are processed alike. *)
Lemma filter_and_convert_next_song_only (df1 df2 : DataFrame) :
  columns df1 = columns df2 ->
  next_song_rows df1 = next_song_rows df2 ->
  filter_and_convert df1 = filter_and_convert df2.
Proof.
  intros C N. unfold filter_and_convert.
  destruct (get_column "page" df1) as [p1|e1] eqn:E1;
    destruct (get_column "page" df2) as [p2|e2] eqn:E2; simpl.
  - rewrite (boolean_index_next_song _ _ E1), (boolean_index_next_song _ _ E2).
    now rewrite C, N.
  - unfold get_column in E1, E2. rewrite C in E1.
    destruct (column_index "page" (columns df2)); discriminate.
  - unfold get_column in E1, E2. rewrite C in E1.
    destruct (column_index "page" (columns df2)); discriminate.
  - unfold get_column in E1, E2. rewrite C in E1.
    destruct (column_index "page" (columns df2)); congruence.
Qed.

Lemma select_columns_rows_length (labels : list string) (df sel : DataFrame) :
  select_columns labels df = Ok sel ->
  List.length (rows sel) = List.length (rows df).
Proof.
  unfold select_columns. destruct (column_indices labels (columns df)); [|discriminate].
  simpl. intros E. inversion E; subst. simpl. apply length_map.
Qed.

End Frames.

(** ** Counting the rows a loop submits *)

Section Counting.
Context `{Env}.

Lemma loop_trace_none {A : Type} (B : body_trace A) (q : query) :
  (forall x r evs, B x r evs -> submitted q evs = []) ->
  forall xs r evs, loop_trace B xs r evs -> submitted q evs = [].
Proof.
  intros HB xs r evs L.
  induction L as [|x xs e evs Hx|x xs r evs1 evs2 Hx L IH]; simpl; eauto.
  rewrite submitted_app, IH, (HB _ _ _ Hx). reflexivity.
Qed.

Lemma loop_trace_one_each {A : Type} (B : body_trace A) (q : query) :
  (forall x evs, B x (Ok tt) evs -> List.length (submitted q evs) = 1%nat) ->
  forall xs evs, loop_trace B xs (Ok tt) evs ->
    List.length (submitted q evs) = List.length xs.
Proof.
  intros HB xs evs L. remember (Ok tt) as r eqn:R.
  induction L as [|x xs e evs Hx|x xs r evs1 evs2 Hx L IH];
    subst; try discriminate; [reflexivity|].
  rewrite submitted_app, length_app, (HB _ _ Hx), IH; auto.
Qed.

Lemma loop_trace_forall {A : Type} (B : body_trace A) (P : event -> Prop) :
  (forall x r evs, B x r evs -> Forall P evs) ->
  forall xs r evs, loop_trace B xs r evs -> Forall P evs.
Proof.
  intros HB xs r evs L. induction L; eauto.
  apply Forall_app. eauto.
Qed.

Lemma user_trace_submitted (q : query) (row : list value) r evs :
  user_trace row r evs ->
  submitted q evs = if query_eqb q user_table_insert then [row] else [].
Proof. unfold user_trace. intros ->. reflexivity. Qed.

Lemma songplay_trace_submitted (q : query) (row : list value) r evs :
  songplay_trace row r evs ->
  q <> song_select -> q <> songplay_table_insert -> submitted q evs = [].
Proof.
  intros S Q1 Q2. destruct S; simpl; destruct q; try reflexivity; congruence.
Qed.

Lemma songplay_trace_one (row : list value) evs :
  songplay_trace row (Ok tt) evs ->
  List.length (submitted songplay_table_insert evs) = 1%nat.
Proof. intros S. inversion S; subst. reflexivity. Qed.

End Counting.

(** ** Log files: which rows reach the cursor *)

Section LogRows.
Context `{Env}.

Lemma log_trace_none (q : query) (df : DataFrame) r evs :
  log_trace df r evs ->
  q <> user_table_insert -> q <> song_select -> q <> songplay_table_insert ->
  submitted q evs = [].
Proof.
  intros L Q1 Q2 Q3.
  assert (U : forall xs r' evs', loop_trace user_trace xs r' evs' ->
                submitted q evs' = []).
  { apply loop_trace_none. intros x r' evs' B.
    rewrite (user_trace_submitted q _ _ _ B). destruct q; simpl; congruence. }
  assert (S : forall xs r' evs', loop_trace songplay_trace xs r' evs' ->
                submitted q evs' = []).
  { apply loop_trace_none. intros x r' evs' B.
    eapply songplay_trace_submitted; eassumption. }
  destruct L as [e|df' user_df e evs _ _ L1|df' user_df r evs1 evs2 _ _ L1 L2].
  - reflexivity.
  - eapply U; eassumption.
  - rewrite submitted_app, (U _ _ _ L1), (S _ _ _ L2). reflexivity.
Qed.

(** A run that returns has submitted one user row and one fact row per
    [NextSong] event. *)
Lemma log_trace_counts (df : DataFrame) evs :
  log_trace df (Ok tt) evs ->
  List.length (submitted user_table_insert evs) = List.length (next_song_rows df) /\
  List.length (submitted songplay_table_insert evs) = List.length (next_song_rows df).
Proof.
  intros L. inversion L as [| |df' user_df r evs1 evs2 EF ES L1 L2]; subst.
  destruct (filter_and_convert_shape _ _ EF) as [_ N].
  apply select_columns_rows_length in ES.
  rewrite !submitted_app, !length_app. split.
  - rewrite (loop_trace_one_each user_trace user_table_insert) with (xs := rows user_df);
      [|intros x evs B; now rewrite (user_trace_submitted user_table_insert x (Ok tt) evs B)
       |assumption].
    rewrite (loop_trace_none songplay_trace user_table_insert) with (evs := evs2)
                                                                 (xs := rows df') (r := Ok tt);
      [simpl; lia| |assumption].
    intros x r evs B. eapply songplay_trace_submitted; [eassumption| |]; discriminate.
  - rewrite (loop_trace_none user_trace songplay_table_insert) with (evs := evs1)
                                                                 (xs := rows user_df) (r := Ok tt);
      [| |assumption].
    + rewrite (loop_trace_one_each songplay_trace songplay_table_insert)
        with (xs := rows df'); [simpl; lia| |assumption].
      intros x evs B. eapply songplay_trace_one; eassumption.
    + intros x r evs B.
      now rewrite (user_trace_submitted songplay_table_insert x r evs B).
Qed.

Lemma process_log_file_run (filepath : string) s r s' :
  process_log_file filepath s = (r, s') ->
  exists evs,
    trace s' = trace s ++ EvRead filepath :: evs /\
    ((exists e, read_json filepath = Raise e /\ r = Raise e /\ evs = []) \/
     (exists df, read_json filepath = Ok df /\ log_trace df r evs)).
Proof.
  unfold process_log_file, bind, pd_read_json. intros E.
  destruct (read_json filepath) as [df|e] eqn:ER.
  - apply process_log_frame_run in E as (evs & T & L).
    exists evs. split; [|right; eauto].
    rewrite T. simpl. now rewrite <- app_assoc.
  - inversion E; subst. exists []. split; [reflexivity|left; eauto].
Qed.

End LogRows.

(** C1, as the code has it: [process_log_file] assembles [time_df] and never
    passes it to the cursor.  No run of it, on any file and against any
    database, adds a parameter list for [time_table_insert] to the trace;
    on the sample log file, which has two [NextSong] events, [time_df] has
    two rows, the run returns, and no time row has been submitted. *)
Theorem C1_time_rows_never_submitted :
  (forall (E : Env) (filepath : string) (s : session),
      submitted time_table_insert (trace (snd (process_log_file filepath s)))
      = submitted time_table_insert (trace s)) /\
  List.length (next_song_rows Sample.log_frame) = 2%nat /\
  obind (@filter_and_convert Sample.env Sample.log_frame) build_time_df
  = Ok (mkDataFrame column_labels
          [[VTimestamp 1541990258796000000; VInt 2; VInt 12; VInt 0; VInt 11;
            VInt 2018; VInt 0];
           [VTimestamp 1541990439796000000; VInt 2; VInt 12; VInt 0; VInt 11;
            VInt 2018; VInt 0]]) /\
  fst (@process_log_file Sample.env Sample.log_file Sample.fresh) = Ok tt /\
  submitted time_table_insert
    (trace (snd (@process_log_file Sample.env Sample.log_file Sample.fresh))) = [].
Proof.
  split; [|repeat split; vm_compute; reflexivity].
  intros E filepath s.
  destruct (process_log_file filepath s) as [r s'] eqn:R. simpl.
  apply process_log_file_run in R as (evs & T & [(e & _ & _ & ->)|(df & _ & L)]).
  - rewrite T, submitted_app. simpl. now rewrite app_nil_r.
  - rewrite T, submitted_app. simpl.
    rewrite (log_trace_none time_table_insert _ _ _ L); try discriminate.
    now rewrite app_nil_r.
Qed.

(** ** Log files: when a run returns *)

Section LogTotal.
Context `{Env}.

Lemma to_datetime_ms_in_range (z : Z) :
  ms_in_range z -> to_datetime_ms (VInt z) = Ok (VTimestamp (z * ns_per_ms)).
Proof.
  intros R. unfold to_datetime_ms.
  destruct (Z.eqb_spec z int64_min) as [->|_];
    [unfold ms_in_range, ms_min, int64_min in R; lia|].
  replace ((ms_min <=? z) && (z <=? ms_max)) with true; [reflexivity|].
  symmetry. apply andb_true_iff. split; apply Z.leb_le; apply R.
Qed.

Lemma to_datetime_in_range (series : list value) :
  Forall (fun v => exists z, v = VInt z /\ ms_in_range z) series ->
  exists converted, to_datetime series = Ok converted.
Proof.
  induction 1 as [|v vs (z & -> & R) _ (ds & IH)]; cbn [to_datetime].
  - eauto.
  - rewrite (to_datetime_ms_in_range z R), IH. simpl. eauto.
Qed.

Lemma column_indices_ok (labels have : list string) :
  (forall l, In l labels -> column_index l have <> None) ->
  exists ps, column_indices labels have = Ok ps.
Proof.
  induction labels as [|l ls IH]; intros C; simpl; [eauto|].
  destruct (column_index l have) eqn:CI; [|exfalso; apply (C l); simpl; auto].
  destruct IH as (ps & ->); [intros; apply C; simpl; auto|]. simpl. eauto.
Qed.

Lemma select_columns_ok (labels : list string) (df : DataFrame) :
  (forall l, In l labels -> column_index l (columns df) <> None) ->
  exists sel, select_columns labels df = Ok sel.
Proof.
  intros C. unfold select_columns.
  destruct (column_indices_ok _ _ C) as (ps & ->). simpl. eauto.
Qed.

Lemma row_attr_ok (name : string) (labels : list string) (row : list value) :
  column_index name labels <> None -> exists v, row_attr name labels row = Ok v.
Proof.
  unfold row_attr. destruct (column_index name labels); [eauto|contradiction].
Qed.

Lemma filter_and_convert_ok (df : DataFrame) :
  has_columns ["page"; "ts"] df ->
  Forall (fun row => exists z, row_attr "ts" (columns df) row = Ok (VInt z)
                               /\ ms_in_range z)
         (next_song_rows df) ->
  exists df', filter_and_convert df = Ok df'.
Proof.
  intros C V. unfold filter_and_convert.
  destruct (get_column "page" df) as [page|e] eqn:EP.
  2:{ unfold get_column in EP.
      destruct (column_index "page" (columns df)) eqn:CI; [discriminate|].
      exfalso. apply (C "page"); [simpl; auto|assumption]. }
  simpl. rewrite (boolean_index_next_song _ _ EP).
  unfold get_column. simpl.
  destruct (column_index "ts" (columns df)) as [pos|] eqn:CI.
  2:{ exfalso. apply (C "ts"); [simpl; auto|assumption]. }
  simpl.
  destruct (to_datetime_in_range (map (cell pos) (next_song_rows df))) as (ds & ->).
  - apply Forall_map. eapply Forall_impl; [|exact V].
    intros row (z & A & R). unfold row_attr in A. rewrite CI in A.
    inversion A. eauto.
  - simpl. eauto.
Qed.

Lemma for_each_ok {A : Type} (body : A -> M unit) (xs : list A) :
  (forall x s, In x xs -> exists s', body x s = (Ok tt, s')) ->
  forall s, exists s', for_each xs body s = (Ok tt, s').
Proof.
  induction xs as [|x xs IH]; intros HB s; simpl.
  - unfold ret. eauto.
  - unfold bind. destruct (HB x s) as (s1 & ->); [simpl; auto|].
    apply IH. intros y s0 I. apply HB. simpl; auto.
Qed.

Lemma cur_execute_ok (q : query) (params : list value) s :
  reliable -> exists s', cur_execute q params s = (Ok tt, s').
Proof.
  intros (X & _ & _). unfold cur_execute. simpl.
  specialize (X q params (db s)).
  destruct (db_execute q params (db s)) as [r d]. simpl in X. subst. eauto.
Qed.

Lemma songplay_record_ok (labels : list string) (row : list value) s :
  reliable ->
  (forall l, In l log_columns -> column_index l labels <> None) ->
  exists s', songplay_record labels row s = (Ok tt, s').
Proof.
  intros R C. unfold songplay_record, bind, lift.
  destruct (row_attr_ok "song" labels row) as (song & ->); [apply C; simpl; tauto|].
  destruct (row_attr_ok "artist" labels row) as (artist & ->); [apply C; simpl; tauto|].
  destruct (row_attr_ok "length" labels row) as (len & ->); [apply C; simpl; tauto|].
  destruct (cur_execute_ok song_select [song; artist; len] s R) as (s1 & ->).
  destruct (cur_fetchone s1) as [r s2] eqn:EF.
  apply cur_fetchone_run in EF as [_ ->].
  destruct R as (X & Y & F). destruct (F (db s1)) as (results & [songid artistid] & -> & ->).
  destruct (row_attr_ok "ts" labels row) as (ts & ->); [apply C; simpl; tauto|].
  destruct (row_attr_ok "userId" labels row) as (userId & ->); [apply C; simpl; tauto|].
  destruct (row_attr_ok "level" labels row) as (level & ->); [apply C; simpl; tauto|].
  destruct (row_attr_ok "sessionId" labels row) as (sessionId & ->); [apply C; simpl; tauto|].
  destruct (row_attr_ok "location" labels row) as (location & ->); [apply C; simpl; tauto|].
  destruct (row_attr_ok "userAgent" labels row) as (userAgent & ->); [apply C; simpl; tauto|].
  apply cur_execute_ok. repeat split; assumption.
Qed.

Lemma process_log_frame_ok (df : DataFrame) s :
  reliable -> valid_log_unit df ->
  exists s', process_log_frame df s = (Ok tt, s').
Proof.
  intros R V. unfold process_log_frame, bind, lift.
  destruct V as [C V].
  destruct (filter_and_convert_ok df) as (df' & EF);
    [intros l I; apply C; simpl in I; simpl; tauto|exact V|].
  rewrite EF.
  destruct (filter_and_convert_shape _ _ EF) as [CC _].
  assert (C' : forall l, In l log_columns -> column_index l (columns df') <> None)
    by (rewrite CC; exact C).
  unfold build_time_df, get_column.
  destruct (column_index "ts" (columns df')) eqn:CI;
    [|exfalso; apply (C' "ts"); [simpl; tauto|assumption]].
  simpl.
  destruct (select_columns_ok user_columns df') as (user_df & ->).
  { intros l I. apply C'. simpl in I. simpl. tauto. }
  destruct (for_each_ok (fun row => cur_execute user_table_insert row) (rows user_df))
    with (s := s) as (s1 & ->).
  { intros x s0 _. now apply cur_execute_ok. }
  apply for_each_ok. intros x s0 _. now apply songplay_record_ok.
Qed.

End LogTotal.

(** C4: against a storage that accepts what it is given, a valid log file
    is processed to the end, and any run of [process_log_file] that returns
    has submitted as many user rows and as many songplay rows as the file
    has events with [page == "NextSong"].  Events with another page leave no
    mark: two frames with the same columns and the same [NextSong] events
    are processed alike, so a frame without such events submits nothing. *)
Theorem C4_user_and_songplay_rows_per_next_song `{Env} :
  forall (filepath : string) (df : DataFrame) (s : session),
    read_json filepath = Ok df ->
    (reliable -> valid_log_unit df ->
     exists s', process_log_file filepath s = (Ok tt, s')) /\
    (forall s', process_log_file filepath s = (Ok tt, s') ->
       exists evs,
         trace s' = trace s ++ EvRead filepath :: evs /\
         List.length (submitted user_table_insert evs)
         = List.length (next_song_rows df) /\
         List.length (submitted songplay_table_insert evs)
         = List.length (next_song_rows df) /\
         (next_song_rows df = [] -> evs = [])) /\
    (forall df2, columns df2 = columns df ->
       next_song_rows df2 = next_song_rows df ->
       process_log_frame df2 s = process_log_frame df s).
Proof.
  intros filepath df s ER. split; [|split].
  - intros R V. unfold process_log_file, bind, pd_read_json. rewrite ER.
    now apply process_log_frame_ok.
  - intros s' E.
    apply process_log_file_run in E as (evs & T & [(e & ER' & _)|(df0 & ER' & L)]);
      [congruence|].
    assert (df0 = df) by congruence. subst df0.
    exists evs. split; [assumption|].
    destruct (log_trace_counts _ _ L) as [U P]. repeat split; try assumption.
    intros N. inversion L as [| |df' user_df r evs1 evs2 EF ES L1 L2]; subst.
    destruct (filter_and_convert_shape _ _ EF) as [_ Len].
    apply select_columns_rows_length in ES.
    rewrite N in Len. simpl in Len.
    destruct (rows df'); [|discriminate].
    destruct (rows user_df); [|discriminate].
    inversion L1; subst. inversion L2; subst. reflexivity.
  - intros df2 C N. unfold process_log_frame.
    now rewrite (filter_and_convert_next_song_only df2 df C N).
Qed.

(** ** The sample installation meets the assumptions *)

Module SampleFacts.

Lemma reliable_env : @reliable Sample.env.
Proof.
  repeat split.
  - intros q params d. destruct q; reflexivity.
  - intros d. simpl. destruct (Sample.result d) as [[a b]|]; simpl.
    + exists (Some [VStr a; VStr b]), (VStr a, VStr b). split; reflexivity.
    + exists None, (VNone, VNone). split; reflexivity.
Qed.

Lemma lookup_contract_env : @lookup_contract Sample.env.
Proof.
  intros d row. simpl. destruct (Sample.result d) as [[a b]|]; simpl; intros E.
  - inversion E. exists (VStr a), (VStr b). repeat split.
  - discriminate.
Qed.

Lemma has_columns_decide (labels : list string) (df : DataFrame) :
  forallb (fun l => match column_index l (columns df) with
                    | Some _ => true
                    | None => false
                    end) labels = true ->
  has_columns labels df.
Proof.
  intros F l I. rewrite forallb_forall in F. specialize (F l I).
  destruct (column_index l (columns df)); [discriminate|discriminate F].
Qed.

Lemma valid_log_frame : valid_log_unit Sample.log_frame.
Proof.
  split.
  - apply has_columns_decide. reflexivity.
  - assert (N : next_song_rows Sample.log_frame
                = [nth 0 (rows Sample.log_frame) []; nth 2 (rows Sample.log_frame) []])
      by (vm_compute; reflexivity).
    rewrite N. constructor; [|constructor; [|constructor]].
    + exists 1541990258796. split; [vm_compute; reflexivity|].
      unfold ms_in_range, ms_min, ms_max; lia.
    + exists 1541990439796. split; [vm_compute; reflexivity|].
      unfold ms_in_range, ms_min, ms_max; lia.
Qed.

End SampleFacts.

(** C4 on the sample log file: the run returns, with two user rows and two
    songplay rows for its two [NextSong] events. *)
Lemma C4_user_and_songplay_rows_per_next_song_witness :
  exists s' evs,
    @process_log_file Sample.env Sample.log_file Sample.fresh = (Ok tt, s') /\
    trace s' = trace Sample.fresh ++ EvRead Sample.log_file :: evs /\
    List.length (submitted user_table_insert evs) = 2%nat /\
    List.length (submitted songplay_table_insert evs) = 2%nat.
Proof.
  destruct (@C4_user_and_songplay_rows_per_next_song Sample.env
              Sample.log_file Sample.log_frame Sample.fresh eq_refl) as (T & C & _).
  destruct (T SampleFacts.reliable_env SampleFacts.valid_log_frame) as (s' & R).
  destruct (C s' R) as (evs & Tr & U & P & _).
  exists s', evs. repeat split; assumption.
Defined.

(** ** The identifiers of a fact row *)

Section FactRows.
Context `{Env}.

Lemma loop_trace_in {A : Type} (B : body_trace A) (q : query)
  (P : list value -> Prop) :
  (forall x r evs params, B x r evs -> In params (submitted q evs) -> P params) ->
  forall xs r evs params,
    loop_trace B xs r evs -> In params (submitted q evs) -> P params.
Proof.
  intros HB xs r evs params L.
  induction L as [|x xs e evs Hx|x xs r evs1 evs2 Hx L IH]; simpl; intros I.
  - contradiction.
  - eauto.
  - rewrite submitted_app in I. apply in_app_or in I as [I|I]; eauto.
Qed.

Lemma unpack_results_contract (d : store) results songid artistid :
  lookup_contract ->
  fst (db_fetchone d) = Ok results ->
  unpack_results results = Ok (songid, artistid) ->
  (is_null songid = false /\ is_null artistid = false) \/
  (songid = VNone /\ artistid = VNone).
Proof.
  intros C F U. destruct results as [row|].
  - destruct (C d row F) as (a & b & -> & Na & Nb).
    simpl in U. inversion U; subst. auto.
  - simpl in U. inversion U; subst. auto.
Qed.

Lemma songplay_trace_all_or_nothing (row : list value) r evs params :
  lookup_contract ->
  songplay_trace row r evs ->
  In params (submitted songplay_table_insert evs) ->
  all_or_nothing params.
Proof.
  intros C S I. destruct S; simpl in I; try contradiction.
  destruct I as [<-|[]].
  unfold all_or_nothing. do 8 eexists. split; [reflexivity|].
  eapply unpack_results_contract; eassumption.
Qed.

Lemma log_trace_all_or_nothing (df : DataFrame) r evs params :
  lookup_contract ->
  log_trace df r evs ->
  In params (submitted songplay_table_insert evs) ->
  all_or_nothing params.
Proof.
  intros C L I.
  assert (U : forall xs r' evs', loop_trace user_trace xs r' evs' ->
                submitted songplay_table_insert evs' = []).
  { apply loop_trace_none. intros x r' evs' B.
    now rewrite (user_trace_submitted songplay_table_insert x r' evs' B). }
  destruct L as [e|df' user_df e evs _ _ L1|df' user_df r evs1 evs2 _ _ L1 L2].
  - contradiction.
  - rewrite (U _ _ _ L1) in I. contradiction.
  - rewrite submitted_app, (U _ _ _ L1) in I. simpl in I.
    eapply (loop_trace_in songplay_trace songplay_table_insert); [|exact L2|exact I].
    intros x r' evs' p B J. eapply songplay_trace_all_or_nothing; eassumption.
Qed.

Lemma attr_or_null_ok (name : string) (labels : list string) (row : list value) :
  column_index name labels <> None ->
  row_attr name labels row = Ok (attr_or_null name labels row).
Proof.
  unfold attr_or_null, row_attr.
  destruct (column_index name labels); [reflexivity|contradiction].
Qed.

(** Once the row is fetched, the record ends with the insert of the fact row
    that carries the unpacked identifiers. *)
Lemma songplay_record_after_fetch (labels : list string) (row : list value)
  s s1 s2 results songid artistid :
  (forall l, In l log_columns -> column_index l labels <> None) ->
  cur_execute song_select (lookup_params labels row) s = (Ok tt, s1) ->
  cur_fetchone s1 = (Ok results, s2) ->
  unpack_results results = Ok (songid, artistid) ->
  songplay_record labels row s
  = cur_execute songplay_table_insert (fact_row labels row songid artistid) s2.
Proof.
  intros C E1 E2 U. unfold songplay_record, bind, lift.
  rewrite !attr_or_null_ok by (apply C; simpl; tauto).
  unfold lookup_params in E1. rewrite E1, E2, U. reflexivity.
Qed.

End FactRows.

(** C3: when the lookup hands back either nothing or a pair of identifiers,
    every fact row [process_log_file] submits carries both identifiers or
    two nulls.  A lookup that finds nothing does not raise: the record goes
    on to the insert of the fact row with both identifiers null, and a lookup
    that finds a pair goes on to the insert with that pair. *)
Theorem C3_song_and_artist_id_all_or_nothing `{Env} :
  lookup_contract ->
  (forall (filepath : string) (s : session) (params : list value),
      In params (submitted songplay_table_insert
                   (trace (snd (process_log_file filepath s)))) ->
      In params (submitted songplay_table_insert (trace s)) \/
      all_or_nothing params) /\
  (forall (labels : list string) (row : list value) (s s1 s2 : session),
      (forall l, In l log_columns -> column_index l labels <> None) ->
      cur_execute song_select (lookup_params labels row) s = (Ok tt, s1) ->
      (cur_fetchone s1 = (Ok None, s2) ->
       songplay_record labels row s
       = cur_execute songplay_table_insert (fact_row labels row VNone VNone) s2) /\
      (forall songid artistid,
         cur_fetchone s1 = (Ok (Some [songid; artistid]), s2) ->
         songplay_record labels row s
         = cur_execute songplay_table_insert
             (fact_row labels row songid artistid) s2)).
Proof.
  intros C. split.
  - intros filepath s params I.
    destruct (process_log_file filepath s) as [r s'] eqn:R. simpl in I.
    apply process_log_file_run in R as (evs & T & D).
    rewrite T, submitted_app in I. apply in_app_or in I as [I|I]; [now left|right].
    simpl in I. destruct D as [(e & _ & _ & ->)|(df & _ & L)]; [contradiction|].
    eapply log_trace_all_or_nothing; eassumption.
  - intros labels row s s1 s2 Cols E1. split.
    + intros E2. eapply songplay_record_after_fetch; try eassumption. reflexivity.
    + intros songid artistid E2.
      eapply songplay_record_after_fetch; try eassumption. reflexivity.
Qed.

(** C3 on the sample log file, with the song files loaded: one play is
    found, one is not, and both fact rows are all-or-nothing. *)
Lemma C3_song_and_artist_id_all_or_nothing_witness :
  Forall all_or_nothing
    (submitted songplay_table_insert
       (trace (snd (@process_log_file Sample.env Sample.log_file Sample.loaded)))).
Proof.
  destruct (@C3_song_and_artist_id_all_or_nothing Sample.env
              SampleFacts.lookup_contract_env) as [A _].
  apply Forall_forall. intros params I.
  destruct (A Sample.log_file Sample.loaded params I) as [Old|New]; [|exact New].
  vm_compute in Old. contradiction.
Defined.

(** ** The orchestrator *)

Section Orchestrator.
Context `{Env}.

Lemma process_song_file_run (filepath : string) s r s' :
  process_song_file filepath s = (r, s') ->
  exists seg, trace s' = trace s ++ EvRead filepath :: seg /\ cursor_only seg.
Proof.
  unfold process_song_file, process_song_frame, bind, lift, pd_read_json.
  intros E.
  assert (Stop : forall e s0 seg, trace s0 = trace s ++ EvRead filepath :: seg ->
            cursor_only seg -> (Raise (A:=unit) e, s0) = (r, s') ->
            exists seg, trace s' = trace s ++ EvRead filepath :: seg /\ cursor_only seg).
  { intros e s0 seg T C Ee. inversion Ee; subst. eauto. }
  assert (T0 : trace (log (EvRead filepath) s) = trace s ++ EvRead filepath :: [])
    by reflexivity.
  assert (C0 : cursor_only []) by constructor.
  destruct (read_json filepath) as [df|e]; [|eauto].
  destruct (select_columns song_columns df) as [sel|e]; [|eauto]. simpl in E.
  destruct (values_0_tolist sel) as [song_data|e]; [|eauto].
  destruct (cur_execute song_table_insert song_data _) as [[[]|e] s1] eqn:E1;
    apply cur_execute_run in E1 as [T1 _]; rewrite T0, <- app_assoc in T1;
    simpl in T1.
  2:{ eapply Stop; [exact T1|repeat constructor|exact E]. }
  assert (C1 : cursor_only [EvExecute song_table_insert song_data])
    by (repeat constructor).
  destruct (select_columns artist_columns df) as [sel'|e]; [|eauto]. simpl in E.
  destruct (values_0_tolist sel') as [artist_data|e]; [|eauto].
  apply cur_execute_run in E as [T2 _]. rewrite T1, <- app_assoc in T2. simpl in T2.
  eexists. split; [exact T2|repeat constructor].
Qed.

Lemma log_trace_cursor_only (df : DataFrame) r evs :
  log_trace df r evs -> cursor_only evs.
Proof.
  intros L.
  assert (U : forall xs r' evs', loop_trace user_trace xs r' evs' -> cursor_only evs').
  { apply loop_trace_forall. intros x r' evs' ->. repeat constructor. }
  assert (S : forall xs r' evs', loop_trace songplay_trace xs r' evs' ->
                cursor_only evs').
  { apply loop_trace_forall. intros x r' evs' B. destruct B; repeat constructor. }
  destruct L as [e|df' user_df e evs _ _ L1|df' user_df r evs1 evs2 _ _ L1 L2].
  - constructor.
  - eapply U; eassumption.
  - apply Forall_app. split; [eapply U|eapply S]; eassumption.
Qed.

(** Either mapper opens its file and then only calls the cursor. *)
Lemma mapper_run (func : string -> M unit) (filepath : string) s r s' :
  func = process_song_file \/ func = process_log_file ->
  func filepath s = (r, s') ->
  exists seg, trace s' = trace s ++ EvRead filepath :: seg /\ cursor_only seg.
Proof.
  intros [-> | ->] E.
  - eapply process_song_file_run; eassumption.
  - apply process_log_file_run in E as (evs & T & [(e & _ & _ & ->)|(df & _ & L)]).
    + exists []. split; [assumption|constructor].
    + exists evs. split; [assumption|]. eapply log_trace_cursor_only; eassumption.
Qed.

Lemma process_unit_run (func : string -> M unit) (n i : nat) (f : string) s s' :
  func = process_song_file \/ func = process_log_file ->
  process_unit func n i f s = (Ok tt, s') ->
  exists seg,
    cursor_only seg /\
    trace s' = trace s ++ (EvRead f :: seg) ++ [EvCommit; EvPrint (FilesProcessed i n)].
Proof.
  intros M E. unfold process_unit, bind in E.
  destruct (func f s) as [[[]|e] s1] eqn:E1; [|discriminate].
  destruct (conn_commit s1) as [[[]|e] s2] eqn:E2; [|discriminate].
  apply (mapper_run _ _ _ _ _ M) in E1 as (seg & T1 & C).
  apply conn_commit_run in E2 as [T2 _].
  unfold print in E. inversion E; subst. simpl.
  exists seg. split; [assumption|].
  rewrite T2, T1, <- !app_assoc. reflexivity.
Qed.

Lemma for_enumerate_units (func : string -> M unit) (n : nat) (files : list string) :
  func = process_song_file \/ func = process_log_file ->
  forall i s s',
    for_enumerate i files (process_unit func n) s = (Ok tt, s') ->
    exists segs,
      List.length segs = List.length files /\
      Forall cursor_only segs /\
      trace s' = trace s ++ units_trace i n files segs.
Proof.
  intros M. induction files as [|f files IH]; intros i s s' E.
  - inversion E; subst. exists []. rewrite app_nil_r. repeat split; constructor.
  - simpl in E. unfold bind in E.
    destruct (process_unit func n i f s) as [[[]|e] s1] eqn:E1; [|discriminate].
    apply (process_unit_run _ _ _ _ _ _ M) in E1 as (seg & C & T1).
    apply IH in E as (segs & L & F & T2).
    exists (seg :: segs). split; [simpl; congruence|]. split; [now constructor|].
    rewrite T2, T1. cbn [units_trace]. rewrite <- !app_assoc. reflexivity.
Qed.

Lemma cursor_only_skipped (seg tail : list event) :
  cursor_only seg ->
  files_read (seg ++ tail) = files_read tail /\
  commits_issued (seg ++ tail) = commits_issued tail.
Proof.
  induction 1 as [|e seg Ce C IH]; simpl; [auto|].
  destruct e; simpl in Ce; try discriminate; exact IH.
Qed.

Lemma units_trace_files_read (i n : nat) (files : list string) (segs : list (list event)) :
  List.length segs = List.length files ->
  Forall cursor_only segs ->
  files_read (units_trace i n files segs) = files /\
  commits_issued (units_trace i n files segs) = List.length files.
Proof.
  revert i segs. induction files as [|f files IH]; intros i [|seg segs] L F;
    try discriminate; simpl; auto.
  inversion F as [|? ? C F']; subst. injection L as L.
  destruct (IH (S i) segs L F') as [R K].
  destruct (cursor_only_skipped seg
              (EvCommit :: EvPrint (FilesProcessed i n)
                 :: units_trace (S i) n files segs) C) as [-> ->].
  simpl. now rewrite R, K.
Qed.

End Orchestrator.

(** C5: a run of [process_data] that returns, with either mapper, leaves
    this on the trace: the count of files, then for each file in the order
    of the listing its opening, the cursor calls that submit its rows, one
    commit and the progress line, and only then the opening of the next
    file.  So the files are opened in the order presented and there are as
    many commits as files, each after the rows of its unit and before any
    row of the next. *)
Theorem C5_one_commit_per_unit_in_order `{Env} :
  forall (filepath : string) (func : string -> M unit) (s s' : session),
    func = process_song_file \/ func = process_log_file ->
    process_data filepath func s = (Ok tt, s') ->
    let files := walk_json filepath in
    let n := List.length files in
    exists segs,
      List.length segs = n /\
      Forall cursor_only segs /\
      trace s' = trace s ++ EvPrint (FilesFound n filepath)
                   :: units_trace 1 n files segs /\
      files_read (units_trace 1 n files segs) = files /\
      commits_issued (units_trace 1 n files segs) = n.
Proof.
  intros filepath func s s' M E files n.
  unfold process_data, bind, print in E. fold files n in E.
  apply (for_enumerate_units func n files M) in E as (segs & L & F & T).
  exists segs. split; [exact L|]. split; [exact F|]. split.
  - rewrite T. simpl. rewrite <- app_assoc. reflexivity.
  - now apply units_trace_files_read.
Qed.

(** C5 on the sample song files. *)
Lemma C5_one_commit_per_unit_in_order_witness :
  exists segs,
    List.length segs = 2%nat /\
    Forall cursor_only segs /\
    trace (snd (@process_data Sample.env "data/song_data" process_song_file
                  Sample.fresh))
    = trace Sample.fresh ++ EvPrint (FilesFound 2 "data/song_data")
        :: units_trace 1 2 [Sample.song_file; Sample.song_file_2] segs /\
    files_read (units_trace 1 2 [Sample.song_file; Sample.song_file_2] segs)
    = [Sample.song_file; Sample.song_file_2] /\
    commits_issued (units_trace 1 2 [Sample.song_file; Sample.song_file_2] segs)
    = 2%nat.
Proof.
  apply (@C5_one_commit_per_unit_in_order Sample.env "data/song_data"
           process_song_file Sample.fresh
           (snd (@process_data Sample.env "data/song_data" process_song_file
                   Sample.fresh))).
  - left. reflexivity.
  - vm_compute. reflexivity.
Defined.

Section Abort.
Context `{Env}.



End Abort.



(** ** Song files *)

Section SongRows.
Context `{Env}.

Lemma column_indices_project (labels have : list string) (ps : list nat)
  (row : list value) :
  column_indices labels have = Ok ps ->
  map (fun p => cell p row) ps = map (fun l => attr_or_null l have row) labels.
Proof.
  revert ps. induction labels as [|l ls IH]; simpl; intros ps E.
  - inversion E. reflexivity.
  - unfold attr_or_null at 1, row_attr.
    destruct (column_index l have) as [pos|]; [|discriminate].
    destruct (column_indices ls have) as [qs|]; [|discriminate].
    simpl in E. inversion E; subst. simpl. now rewrite (IH qs eq_refl).
Qed.

Lemma select_columns_project (labels : list string) (df sel : DataFrame) :
  select_columns labels df = Ok sel ->
  sel = mkDataFrame labels
          (map (fun row => map (fun l => attr_or_null l (columns df) row) labels)
               (rows df)).
Proof.
  unfold select_columns.
  destruct (column_indices labels (columns df)) as [ps|] eqn:E; [|discriminate].
  simpl. intros S. inversion S. f_equal.
  apply map_ext. intros row. now apply column_indices_project.
Qed.




End SongRows.






(** ** The calendar *)

Section Calendar.

Lemma doe_of_days_range (days : Z) : 0 <= doe_of_days days < 146097.
Proof. unfold doe_of_days. apply Z.mod_pos_bound. lia. Qed.

Lemma yoe_of_doe_range (doe : Z) :
  0 <= doe < 146097 -> 0 <= yoe_of_doe doe <= 399.
Proof. intros R. unfold yoe_of_doe. Z.div_mod_to_equations. lia. Qed.

Lemma doy_of_doe_range (doe : Z) :
  0 <= doe < 146097 -> 0 <= doy_of_doe doe <= 365.
Proof.
  intros R. unfold doy_of_doe, yoe_of_doe. Z.div_mod_to_equations. lia.
Qed.

(** The bounds of the fields within an era. *)
Lemma era_fields (days : Z) :
  let doe := doe_of_days days in
  0 <= yoe_of_doe doe <= 399 /\
  0 <= mp_of_doe doe <= 11 /\
  1 <= day_of_days days <= 31.
Proof.
  intros doe. pose proof (doe_of_days_range days) as R. fold doe in R.
  pose proof (yoe_of_doe_range doe R) as Y.
  pose proof (doy_of_doe_range doe R) as D.
  unfold day_of_days, mp_of_doe. fold doe.
  set (doy := doy_of_doe doe) in *. clearbody doy.
  split; [exact Y|]. split; Z.div_mod_to_equations; lia.
Qed.

Lemma month_of_days_range (days : Z) : 1 <= month_of_days days <= 12.
Proof.
  destruct (era_fields days) as (_ & M & _). unfold month_of_days.
  destruct (Z.ltb_spec (mp_of_doe (doe_of_days days)) 10); lia.
Qed.

Lemma dayofweek_of_days_range (days : Z) : 0 <= dayofweek_of_days days <= 6.
Proof.
  unfold dayofweek_of_days. pose proof (Z.mod_pos_bound (days + 3) 7). lia.
Qed.

Lemma hour_of_ns_range (ns : Z) : 0 <= hour_of_ns ns <= 23.
Proof.
  unfold hour_of_ns. pose proof (Z.mod_pos_bound (ns / ns_per_hour) 24). lia.
Qed.


(** Within the range of [datetime64[ns]] the year has four digits. *)
Lemma year_four_digits (z : Z) :
  ms_in_range z -> 1000 <= year_of_days (days_of_ns (z * ns_per_ms)) <= 9999.
Proof.
  unfold ms_in_range, ms_min, ms_max. intros R.
  set (days := days_of_ns (z * ns_per_ms)).
  assert (B : -106752 <= days <= 106751).
  { unfold days, days_of_ns, ns_per_ms, ns_per_day.
    split.
    - apply Z.div_le_lower_bound; lia.
    - apply Z.lt_succ_r. apply Z.div_lt_upper_bound; lia. }
  destruct (era_fields days) as (Y & _ & _).
  assert (E : 4 <= era_of_days days <= 5).
  { unfold era_of_days. split.
    - apply Z.div_le_lower_bound; lia.
    - apply Z.lt_succ_r. apply Z.div_lt_upper_bound; lia. }
  unfold year_of_days. destruct (month_of_days days <=? 2); lia.
Qed.

End Calendar.

(** ** The time table *)

Section TimeTable.
Context `{Env}.

Lemma zip_set_map (pos : nat) (f : value -> value) (g : value -> list value)
  (xs : list value) :
  zip_set pos (map f xs) (map g xs) = map (fun x => set_nth pos (f x) (g x)) xs.
Proof. induction xs as [|x xs IH]; simpl; congruence. Qed.

Lemma set_column_map (label : string) (pos : nat) (labels : list string)
  (f : value -> value) (g : value -> list value) (xs : list value) :
  column_index label labels = Some pos ->
  set_column label (map f xs) (mkDataFrame labels (map g xs))
  = mkDataFrame labels (map (fun x => set_nth pos (f x) (g x)) xs).
Proof.
  intros C. unfold set_column. cbn [columns rows]. rewrite C.
  destruct xs as [|x xs]; [reflexivity|].
  cbn [map]. f_equal. cbn [zip_set]. f_equal. apply zip_set_map.
Qed.

(** Filled column by column, [time_df] holds one row per cell of the [ts]
    column, and the row is made from that cell alone. *)
Lemma build_time_df_rows (t : DataFrame) (ts : list value) :
  get_column "ts" t = Ok ts ->
  build_time_df t = Ok (mkDataFrame column_labels (map time_row ts)).
Proof.
  intros G. unfold build_time_df. rewrite G. cbn [obind]. f_equal.
  unfold time_data. cbn [enumerate column_labels fold_left nth].
  fold column_labels.
  assert (S0 : set_column "start_time" ts (mkDataFrame column_labels [])
               = mkDataFrame column_labels
                   (map (fun v => set_nth 0 v (repeat VNone 7)) ts)) by reflexivity.
  rewrite S0.
  rewrite (set_column_map "hour" 1) by reflexivity.
  rewrite (set_column_map "day" 2) by reflexivity.
  rewrite (set_column_map "week" 3) by reflexivity.
  rewrite (set_column_map "month" 4) by reflexivity.
  rewrite (set_column_map "year" 5) by reflexivity.
  rewrite (set_column_map "weekday" 6) by reflexivity.
  reflexivity.
Qed.

Lemma cell_set_nth (pos : nat) (v : value) (row : list value) :
  cell pos (set_nth pos v row) = v.
Proof.
  unfold cell. revert row. induction pos as [|p IH]; intros [|c row]; simpl; auto.
Qed.

Lemma column_of_zip_set (pos : nat) (series : list value) (rs : list (list value)) :
  List.length series = List.length rs ->
  map (cell pos) (zip_set pos series rs) = series.
Proof.
  revert series. induction rs as [|r rs IH]; intros [|v series] L;
    try discriminate; simpl; [reflexivity|].
  rewrite cell_set_nth. f_equal. apply IH. simpl in L. congruence.
Qed.

Lemma get_column_set_column (label : string) (series : list value) (df : DataFrame) :
  column_index label (columns df) <> None ->
  List.length series = List.length (rows df) ->
  get_column label (set_column label series df) = Ok series.
Proof.
  intros C L. unfold get_column.
  rewrite (set_column_columns label series df C).
  unfold set_column.
  destruct (column_index label (columns df)) as [pos|]; [|contradiction].
  destruct (rows df) as [|r rs] eqn:R.
  - destruct series; [reflexivity|discriminate].
  - cbn [rows]. f_equal. now apply column_of_zip_set.
Qed.

Lemma to_datetime_cells (series converted : list value) :
  to_datetime series = Ok converted ->
  Forall2 (fun v d => to_datetime_ms v = Ok d) series converted.
Proof.
  revert converted. induction series as [|v vs IH]; cbn [to_datetime];
    intros converted E.
  - inversion E. constructor.
  - destruct (to_datetime_ms v) as [d|] eqn:Ed; [|discriminate]. cbn [obind] in E.
    destruct (to_datetime vs) as [ds|]; [|discriminate]. cbn [obind] in E.
    inversion E; subst. constructor; auto.
Qed.

(** Lines 46 to 58 on a frame: when the conversion goes through, the time
    table has, for each [NextSong] event in order, the row made from the
    conversion of its [ts]. *)
Lemma time_df_of_frame (df df' : DataFrame) :
  filter_and_convert df = Ok df' ->
  exists ts converted,
    get_column "ts" (mkDataFrame (columns df) (next_song_rows df)) = Ok ts /\
    Forall2 (fun v d => to_datetime_ms v = Ok d) ts converted /\
    build_time_df df' = Ok (mkDataFrame column_labels (map time_row converted)).
Proof.
  unfold filter_and_convert. intros E.
  destruct (get_column "page" df) as [page|] eqn:EP; [|discriminate].
  cbn [obind] in E. rewrite (boolean_index_next_song _ _ EP) in E.
  destruct (get_column "ts" _) as [ts|] eqn:ET; [|discriminate]. cbn [obind] in E.
  destruct (to_datetime ts) as [converted|] eqn:EC; [|discriminate].
  cbn [obind] in E. inversion E; subst df'. clear E.
  exists ts, converted. split; [reflexivity|]. split; [now apply to_datetime_cells|].
  apply build_time_df_rows. apply get_column_set_column.
  - unfold get_column in ET. cbn [columns] in *.
    destruct (column_index "ts" (columns df)); [discriminate|discriminate ET].
  - apply to_datetime_length in EC. rewrite EC.
    unfold get_column in ET. cbn [columns rows] in *.
    destruct (column_index "ts" (columns df)); [|discriminate].
    inversion ET. now rewrite length_map.
Qed.



End TimeTable.



(** C2, as the code has it: the [week] column is filled from
    [dt.dayofweek], the accessor that also fills [weekday].  In every row the
    two columns hold the same cell, a day of the week from 0 (Monday) to 6,
    so [week] is not the week of the year: for 1541990258796 ms, a Monday in
    ISO week 46 of 2018, the row has [week] 0.  The other fields are as
    specified: hour within 0 to 23, day within 1 to 31, month within 1 to
    12 (and the year has four digits, [year_four_digits]). *)
Theorem C2_week_column_is_day_of_week :
  (forall v : value,
      row_attr "week" column_labels (time_row v)
      = row_attr "weekday" column_labels (time_row v)) /\
  (forall ns : Z,
      time_row (VTimestamp ns)
      = [VTimestamp ns; VInt (hour_of_ns ns);
         VInt (day_of_days (days_of_ns ns));
         VInt (dayofweek_of_days (days_of_ns ns));
         VInt (month_of_days (days_of_ns ns));
         VInt (year_of_days (days_of_ns ns));
         VInt (dayofweek_of_days (days_of_ns ns))] /\
      0 <= hour_of_ns ns <= 23 /\
      1 <= day_of_days (days_of_ns ns) <= 31 /\
      0 <= dayofweek_of_days (days_of_ns ns) <= 6 /\
      1 <= month_of_days (days_of_ns ns) <= 12) /\
  row_attr "week" column_labels (time_row (VTimestamp 1541990258796000000))
  = Ok (VInt 0) /\
  iso_week_of_ns 1541990258796000000 = 46.
Proof.
  split; [|split; [|split]].
  - intros v. reflexivity.
  - intros ns. split; [reflexivity|]. split; [apply hour_of_ns_range|].
    split; [apply era_fields|]. split; [apply dayofweek_of_days_range|].
    apply month_of_days_range.
  - vm_compute. reflexivity.
  - vm_compute. reflexivity.
Qed.


Section Conversion.
Context `{Env}.



End Conversion.



(** * Further properties of the code *)

(** ** Song files that cannot be loaded *)

Section SongDefects.
Context `{Env}.

Lemma column_indices_missing (labels have : list string) (l : string) :
  In l labels -> column_index l have = None ->
  exists l', In l' labels /\ column_indices labels have = Raise (KeyError l').
Proof.
  induction labels as [|x xs IH]; intros I N; [contradiction|].
  cbn [column_indices].
  destruct (column_index x have) as [pos|] eqn:Cx.
  - destruct I as [->|I]; [congruence|].
    destruct (IH I N) as (l' & I' & ->). exists l'. split; [now right|reflexivity].
  - exists x. split; [now left|reflexivity].
Qed.

Lemma select_columns_missing (labels : list string) (df : DataFrame) (l : string) :
  In l labels -> column_index l (columns df) = None ->
  exists l', In l' labels /\ select_columns labels df = Raise (KeyError l').
Proof.
  intros I N. unfold select_columns.
  destruct (column_indices_missing labels (columns df) l I N) as (l' & I' & ->).
  exists l'. split; [exact I'|reflexivity].
Qed.

End SongDefects.

(** X1: a song file without one of the five song columns is rejected with
    [KeyError] and nothing submitted: the session holds the opening of the
    file and nothing else.  An empty file, read as a frame without columns,
    is such a file. *)
Theorem song_file_rejected_before_any_insert `{Env} :
  forall (filepath : string) (df : DataFrame) (l : string) (s : session),
    read_json filepath = Ok df ->
    In l song_columns -> column_index l (columns df) = None ->
    exists l', In l' song_columns /\
               process_song_file filepath s
               = (Raise (KeyError l'), log (EvRead filepath) s).
Proof.
  intros filepath df l s ER I N.
  destruct (select_columns_missing song_columns df l I N) as (l' & I' & E).
  exists l'. split; [exact I'|].
  unfold process_song_file, process_song_frame, bind, lift, pd_read_json.
  now rewrite ER, E.
Qed.

(** X1 on a log file given to the song mapper, and on the empty file. *)
Lemma song_file_rejected_before_any_insert_witness :
  (exists l', In l' song_columns /\
              @process_song_file Sample.env Sample.log_file Sample.fresh
              = (Raise (KeyError l'), log (EvRead Sample.log_file) Sample.fresh)) /\
  (exists l', In l' song_columns /\
              @process_song_file Faulty.env Faulty.empty_file Faulty.fresh
              = (Raise (KeyError l'), log (EvRead Faulty.empty_file) Faulty.fresh)).
Proof.
  split.
  - apply (@song_file_rejected_before_any_insert Sample.env Sample.log_file
             Sample.log_frame "song_id" Sample.fresh);
      [reflexivity|simpl; auto|reflexivity].
  - apply (@song_file_rejected_before_any_insert Faulty.env Faulty.empty_file
             Faulty.empty_frame "song_id" Faulty.fresh);
      [reflexivity|simpl; auto|reflexivity].
Defined.



(** ** Log files: what the rows hold *)

Section LogContents.
Context `{Env}.

Lemma column_index_inj (cols : list string) (l l' : string) (p : nat) :
  column_index l cols = Some p -> column_index l' cols = Some p -> l = l'.
Proof.
  revert p. induction cols as [|c cols IH]; intros p A B; [discriminate|].
  cbn [column_index] in A, B.
  destruct (String.eqb_spec l c) as [->|Nl];
    destruct (String.eqb_spec l' c) as [->|Nl']; try reflexivity.
  - destruct (column_index l' cols); inversion A; subst; discriminate.
  - destruct (column_index l cols); inversion B; subst; discriminate.
  - destruct (column_index l cols) as [q|] eqn:Cl; [|discriminate].
    destruct (column_index l' cols) as [q'|] eqn:Cl'; [|discriminate].
    cbn [option_map] in A, B. apply (IH q); congruence.
Qed.

Lemma cell_set_nth_other (pos p : nat) (v : value) (row : list value) :
  p <> pos -> cell p (set_nth pos v row) = cell p row.
Proof.
  unfold cell. revert p row. induction pos as [|pos IH]; intros [|p] [|c row] N;
    try contradiction; cbn [set_nth nth]; try reflexivity.
  - now destruct p.
  - rewrite IH by congruence. now destruct p.
  - apply IH. congruence.
Qed.

Lemma attr_or_null_other (cols : list string) (l : string) (pos : nat)
  (v : value) (row : list value) :
  column_index "ts" cols = Some pos -> l <> "ts" ->
  attr_or_null l cols (set_nth pos v row) = attr_or_null l cols row.
Proof.
  intros T N. unfold attr_or_null, row_attr.
  destruct (column_index l cols) as [p|] eqn:C; [|reflexivity].
  rewrite cell_set_nth_other; [reflexivity|].
  intros ->. apply N. now apply (column_index_inj cols l "ts" pos).
Qed.

Lemma attr_or_null_ts (cols : list string) (pos : nat) (v : value)
  (row : list value) :
  column_index "ts" cols = Some pos ->
  attr_or_null "ts" cols (set_nth pos v row) = v.
Proof.
  intros T. unfold attr_or_null, row_attr. rewrite T. apply cell_set_nth.
Qed.

Lemma row_attr_attr_or_null (name : string) (labels : list string)
  (row : list value) (v : value) :
  row_attr name labels row = Ok v -> attr_or_null name labels row = v.
Proof. unfold attr_or_null. now intros ->. Qed.

(** The frame the loops run over: the [NextSong] records with their [ts]
    converted, nothing else changed. *)
Lemma filter_and_convert_rows (df df' : DataFrame) :
  filter_and_convert df = Ok df' ->
  exists pos converted,
    column_index "ts" (columns df) = Some pos /\
    to_datetime (map (cell pos) (next_song_rows df)) = Ok converted /\
    columns df' = columns df /\
    rows df' = zip_set pos converted (next_song_rows df).
Proof.
  intros E. destruct (filter_and_convert_shape _ _ E) as [CC _].
  unfold filter_and_convert in E.
  destruct (get_column "page" df) as [page|] eqn:EP; [|discriminate].
  cbn [obind] in E. rewrite (boolean_index_next_song _ _ EP) in E.
  unfold get_column in E. cbn [columns rows] in E.
  destruct (column_index "ts" (columns df)) as [pos|] eqn:CI; [|discriminate].
  cbn [obind] in E.
  destruct (to_datetime (map (cell pos) (next_song_rows df))) as [converted|] eqn:EC;
    [|discriminate].
  cbn [obind] in E. inversion E as [E']. clear E. subst df'.
  exists pos, converted.
  split; [reflexivity|]. split; [exact EC|]. split; [exact CC|].
  unfold set_column. cbn [columns rows]. rewrite CI.
  destruct (next_song_rows df) as [|r rs] eqn:N; [|reflexivity].
  cbn [map to_datetime] in EC. inversion EC. reflexivity.
Qed.

Lemma songplay_record_steps (labels : list string) (row : list value) s r s' :
  songplay_record labels row s = (r, s') ->
  exists evs, trace s' = trace s ++ evs /\ songplay_steps labels row r evs.
Proof.
  unfold songplay_record, bind, lift, songplay_steps. intros E.
  assert (Stop0 : forall e, (Raise (A:=unit) e, s) = (r, s') ->
            exists evs, trace s' = trace s ++ evs /\
              exists songid artistid k,
                evs = firstn k (songplay_events labels row songid artistid) /\
                (r = Ok tt -> k = 3%nat)).
  { intros e Ee. inversion Ee; subst. exists []. rewrite app_nil_r.
    split; [reflexivity|]. exists VNone, VNone, 0%nat. split; [reflexivity|discriminate]. }
  destruct (row_attr "song" labels row) as [song|e] eqn:A1; [|eauto].
  destruct (row_attr "artist" labels row) as [artist|e] eqn:A2; [|eauto].
  destruct (row_attr "length" labels row) as [len|e] eqn:A3; [|eauto].
  apply row_attr_attr_or_null in A1, A2, A3. subst song artist len.
  fold (lookup_params labels row) in E.
  destruct (cur_execute song_select (lookup_params labels row) s)
    as [[[]|e] s1] eqn:E1; apply cur_execute_run in E1 as [T1 _].
  2:{ inversion E; subst. eexists. split; [exact T1|].
      exists VNone, VNone, 1%nat. split; [reflexivity|discriminate]. }
  destruct (cur_fetchone s1) as [[results|e] s2] eqn:E2;
    apply cur_fetchone_run in E2 as [T2 _].
  2:{ inversion E; subst. eexists. split; [rewrite T2, T1, <- app_assoc; reflexivity|].
      exists VNone, VNone, 2%nat. split; [reflexivity|discriminate]. }
  assert (Stop2 : forall e, (Raise (A:=unit) e, s2) = (r, s') ->
            exists evs, trace s' = trace s ++ evs /\
              exists songid artistid k,
                evs = firstn k (songplay_events labels row songid artistid) /\
                (r = Ok tt -> k = 3%nat)).
  { intros e Ee. inversion Ee; subst. eexists.
    split; [rewrite T2, T1, <- app_assoc; reflexivity|].
    exists VNone, VNone, 2%nat. split; [reflexivity|discriminate]. }
  destruct (unpack_results results) as [[songid artistid]|e]; [|eauto].
  destruct (row_attr "ts" labels row) as [ts|e] eqn:A4; [|eauto].
  destruct (row_attr "userId" labels row) as [userId|e] eqn:A5; [|eauto].
  destruct (row_attr "level" labels row) as [level|e] eqn:A6; [|eauto].
  destruct (row_attr "sessionId" labels row) as [sessionId|e] eqn:A7; [|eauto].
  destruct (row_attr "location" labels row) as [location|e] eqn:A8; [|eauto].
  destruct (row_attr "userAgent" labels row) as [userAgent|e] eqn:A9; [|eauto].
  apply row_attr_attr_or_null in A4, A5, A6, A7, A8, A9. subst.
  fold (fact_row labels row songid artistid) in E.
  apply cur_execute_run in E as [T3 _].
  eexists. split; [rewrite T3, T2, T1, <- !app_assoc; reflexivity|].
  exists songid, artistid, 3%nat. split; [reflexivity|reflexivity].
Qed.

(** The two loops of [process_log_frame], once the frame is prepared. *)
Lemma process_log_frame_loops (df df' user_df : DataFrame) s :
  filter_and_convert df = Ok df' ->
  select_columns user_columns df' = Ok user_df ->
  process_log_frame df s
  = (for_each (rows user_df) (fun row => cur_execute user_table_insert row) ;;
     for_each (rows df') (songplay_record (columns df'))) s.
Proof.
  intros EF ES. unfold process_log_frame, bind at 1, lift. rewrite EF.
  destruct (time_df_of_frame df df' EF) as (ts & converted & _ & _ & ->).
  unfold bind at 1. unfold bind at 1. now rewrite ES.
Qed.

Lemma user_loop_events (xs : list (list value)) r evs :
  loop_trace user_trace xs r evs ->
  exists k, evs = map (EvExecute user_table_insert) (firstn k xs) /\
            (r = Ok tt -> k = List.length xs).
Proof.
  intros L. induction L as [|x xs e evs Hx|x xs r evs1 evs2 Hx L (k & -> & K)].
  - exists 0%nat. split; reflexivity.
  - exists 1%nat. rewrite Hx. cbn [firstn map]. split; [reflexivity|discriminate].
  - exists (S k). rewrite Hx. cbn [firstn map length]. split; [reflexivity|].
    intros R. now rewrite (K R).
Qed.

Lemma songplay_loop_rows (labels : list string) (xs : list (list value)) evs :
  loop_trace (songplay_steps labels) xs (Ok tt) evs ->
  submitted song_select evs = map (lookup_params labels) xs /\
  submitted user_table_insert evs = [] /\
  Forall2 (fun row params =>
             exists songid artistid, params = fact_row labels row songid artistid)
          xs (submitted songplay_table_insert evs).
Proof.
  intros L. remember (Ok tt) as r eqn:R.
  induction L as [|x xs e evs Hx|x xs r evs1 evs2 Hx L IH]; subst; try discriminate.
  - repeat split. constructor.
  - destruct (IH eq_refl) as (S1 & S2 & S3).
    destruct Hx as (songid & artistid & k & -> & K). rewrite (K eq_refl).
    cbn [firstn songplay_events]. rewrite !submitted_app, S1, S2.
    cbn [submitted query_eqb app map]. repeat split.
    constructor; [eauto|exact S3].
Qed.

End LogContents.

Section LogOrder.
Context `{Env}.

Lemma submitted_user_events (q : query) (xs : list (list value)) :
  submitted q (map (EvExecute user_table_insert) xs)
  = if query_eqb q user_table_insert then xs else [].
Proof.
  induction xs as [|x xs IH]; cbn [map submitted].
  - now destruct (query_eqb q user_table_insert).
  - rewrite IH. now destruct (query_eqb q user_table_insert).
Qed.

Lemma map_zip_set (A : Type) (f : list value -> A) (pos : nat)
  (series : list value) (rs : list (list value)) :
  (forall v r, f (set_nth pos v r) = f r) ->
  map f (zip_set pos series rs) = map f rs.
Proof.
  intros F. revert series. induction rs as [|r rs IH]; intros series; [reflexivity|].
  destruct series; cbn [zip_set map]; now rewrite F, IH.
Qed.

Lemma user_row_other (cols : list string) (pos : nat) (v : value) (r : list value) :
  column_index "ts" cols = Some pos ->
  user_row cols (set_nth pos v r) = user_row cols r.
Proof.
  intros T. unfold user_row, user_columns. cbn [map].
  now rewrite !(attr_or_null_other cols _ pos v r T) by discriminate.
Qed.

Lemma lookup_params_other (cols : list string) (pos : nat) (v : value)
  (r : list value) :
  column_index "ts" cols = Some pos ->
  lookup_params cols (set_nth pos v r) = lookup_params cols r.
Proof.
  intros T. unfold lookup_params.
  now rewrite !(attr_or_null_other cols _ pos v r T) by discriminate.
Qed.

(** Any run of [process_log_frame]: user inserts first, then passes of the
    songplay loop, which start only when every user row is in. *)
Lemma process_log_frame_steps (df : DataFrame) s r s' :
  process_log_frame df s = (r, s') ->
  exists users labels plays r2 evs2,
    trace s' = trace s ++ map (EvExecute user_table_insert) users ++ evs2 /\
    loop_trace (songplay_steps labels) plays r2 evs2 /\
    (evs2 <> [] -> List.length users = List.length (next_song_rows df)).
Proof.
  intros E.
  assert (Nothing : s' = s ->
            exists users labels plays r2 evs2,
              trace s' = trace s ++ map (EvExecute user_table_insert) users ++ evs2 /\
              loop_trace (songplay_steps labels) plays r2 evs2 /\
              (evs2 <> [] -> List.length users = List.length (next_song_rows df))).
  { intros ->. exists [], [], [], (Ok tt), []. rewrite app_nil_r. split; [reflexivity|].
    split; [constructor|]. intros N. now contradiction N. }
  destruct (filter_and_convert df) as [df'|e] eqn:EF.
  2:{ unfold process_log_frame, bind, lift in E. rewrite EF in E.
      inversion E; subst. now apply Nothing. }
  destruct (select_columns user_columns df') as [user_df|e] eqn:ES.
  2:{ unfold process_log_frame, bind, lift in E. rewrite EF in E.
      destruct (build_time_df df'); [rewrite ES in E|]; inversion E; subst;
        now apply Nothing. }
  rewrite (process_log_frame_loops df df' user_df s EF ES) in E.
  unfold bind in E.
  destruct (for_each (rows user_df) (fun row => cur_execute user_table_insert row) s)
    as [[[]|e] s1] eqn:EL1;
    apply (for_each_run user_trace) in EL1 as (evs1 & T1 & L1);
    try (intros; eapply user_insert_run; eassumption);
    apply user_loop_events in L1 as (k & -> & K).
  - apply (for_each_run (songplay_steps (columns df'))) in E as (evs2 & T2 & L2);
      [|intros; eapply songplay_record_steps; eassumption].
    exists (firstn k (rows user_df)), (columns df'), (rows df'), r, evs2.
    split; [rewrite T2, T1, <- app_assoc; reflexivity|]. split; [exact L2|].
    intros _. rewrite (K eq_refl), firstn_all.
    apply select_columns_rows_length in ES. rewrite ES.
    now destruct (filter_and_convert_shape _ _ EF).
  - inversion E; subst.
    exists (firstn k (rows user_df)), [], [], (Ok tt), [].
    rewrite app_nil_r. split; [exact T1|]. split; [constructor|].
    intros N. now contradiction N.
Qed.

(** A run of [process_log_frame] that returns. *)
Lemma process_log_frame_returns (df : DataFrame) s s' :
  process_log_frame df s = (Ok tt, s') ->
  exists pos converted evs2,
    column_index "ts" (columns df) = Some pos /\
    to_datetime (map (cell pos) (next_song_rows df)) = Ok converted /\
    trace s' = trace s
               ++ map (EvExecute user_table_insert)
                    (map (user_row (columns df)) (next_song_rows df))
               ++ evs2 /\
    loop_trace (songplay_steps (columns df))
      (zip_set pos converted (next_song_rows df)) (Ok tt) evs2.
Proof.
  intros E.
  destruct (filter_and_convert df) as [df'|e] eqn:EF.
  2:{ unfold process_log_frame, bind, lift in E. rewrite EF in E. discriminate. }
  destruct (select_columns user_columns df') as [user_df|e] eqn:ES.
  2:{ unfold process_log_frame, bind, lift in E. rewrite EF in E.
      destruct (build_time_df df'); [rewrite ES in E|]; discriminate. }
  rewrite (process_log_frame_loops df df' user_df s EF ES) in E.
  unfold bind in E.
  destruct (for_each (rows user_df) (fun row => cur_execute user_table_insert row) s)
    as [[[]|e] s1] eqn:EL1; [|discriminate].
  apply (for_each_run user_trace) in EL1 as (evs1 & T1 & L1);
    [|intros; eapply user_insert_run; eassumption].
  apply user_loop_events in L1 as (k & -> & K).
  rewrite (K eq_refl), firstn_all in T1.
  apply (for_each_run (songplay_steps (columns df'))) in E as (evs2 & T2 & L2);
    [|intros; eapply songplay_record_steps; eassumption].
  destruct (filter_and_convert_rows df df' EF) as (pos & converted & CI & EC & CC & RR).
  apply select_columns_project in ES. subst user_df. cbn [rows] in T1.
  rewrite CC in *. rewrite RR in *.
  exists pos, converted, evs2. split; [exact CI|]. split; [exact EC|].
  split; [|exact L2].
  rewrite T2, T1, <- app_assoc. do 3 f_equal.
  change (fun row => map (fun l => attr_or_null l (columns df) row) user_columns)
    with (user_row (columns df)).
  apply map_zip_set. intros v r0. now apply user_row_other.
Qed.

Lemma process_log_file_frame (filepath : string) (df : DataFrame) s :
  read_json filepath = Ok df ->
  process_log_file filepath s = process_log_frame df (log (EvRead filepath) s).
Proof.
  intros ER. unfold process_log_file, bind, pd_read_json. now rewrite ER.
Qed.

Lemma trace_after_read (filepath : string) (s s' : session)
  (evs tail : list event) :
  trace s' = trace (log (EvRead filepath) s) ++ tail ->
  trace s' = trace s ++ EvRead filepath :: evs ->
  evs = tail.
Proof.
  cbn [log trace]. rewrite <- app_assoc. cbn [app]. intros A B.
  rewrite A in B. apply app_inv_head in B. now inversion B.
Qed.

End LogOrder.



Section FactContents.
Context `{Env}.

Lemma converted_rows (pos : nat) (rs : list (list value)) (converted : list value) :
  to_datetime (map (cell pos) rs) = Ok converted ->
  Forall2 (fun row row' =>
             exists d, to_datetime_ms (cell pos row) = Ok d /\
                       row' = set_nth pos d row)
          rs (zip_set pos converted rs).
Proof.
  intros E. apply to_datetime_cells in E.
  revert converted E. induction rs as [|r rs IH]; intros converted E.
  - constructor.
  - cbn [map] in E. inversion E as [|v d vs ds Ed F]; subst.
    cbn [zip_set]. constructor; eauto.
Qed.

Lemma forall2_compose {A B C : Type} (P : A -> B -> Prop) (Q : B -> C -> Prop)
  (R : A -> C -> Prop) :
  (forall a b c, P a b -> Q b c -> R a c) ->
  forall xs ys zs, Forall2 P xs ys -> Forall2 Q ys zs -> Forall2 R xs zs.
Proof.
  intros PQ xs ys zs F. revert zs.
  induction F as [|a b xs ys Pab F IH]; intros zs G; inversion G; subst;
    constructor; eauto.
Qed.

(** The fact row of a record whose [ts] converts to [d]. *)
Lemma fact_row_converted (cols : list string) (pos : nat) (d : value)
  (r : list value) (songid artistid : value) :
  column_index "ts" cols = Some pos ->
  fact_row cols (set_nth pos d r) songid artistid
  = [d; attr_or_null "userId" cols r; attr_or_null "level" cols r;
     songid; artistid; attr_or_null "sessionId" cols r;
     attr_or_null "location" cols r; attr_or_null "userAgent" cols r].
Proof.
  intros T. unfold fact_row.
  rewrite (attr_or_null_ts cols pos d r T).
  now rewrite !(attr_or_null_other cols _ pos d r T) by discriminate.
Qed.

End FactContents.

Lemma songplay_rows_of_run `{Env} :
  forall (filepath : string) (df : DataFrame) (s s' : session) (evs : list event),
    read_json filepath = Ok df ->
    process_log_file filepath s = (Ok tt, s') ->
    trace s' = trace s ++ EvRead filepath :: evs ->
    submitted song_select evs
    = map (lookup_params (columns df)) (next_song_rows df) /\
    Forall2 (fun row params =>
               exists d songid artistid,
                 to_datetime_ms (attr_or_null "ts" (columns df) row) = Ok d /\
                 params = [d; attr_or_null "userId" (columns df) row;
                           attr_or_null "level" (columns df) row;
                           songid; artistid;
                           attr_or_null "sessionId" (columns df) row;
                           attr_or_null "location" (columns df) row;
                           attr_or_null "userAgent" (columns df) row])
            (next_song_rows df) (submitted songplay_table_insert evs).
Proof.
  intros filepath df s s' evs ER E T.
  rewrite (process_log_file_frame filepath df s ER) in E.
  apply process_log_frame_returns in E as (pos & converted & evs2 & CI & EC & T' & L).
  rewrite (trace_after_read filepath s s' evs _ T' T).
  destruct (songplay_loop_rows _ _ _ L) as (S1 & _ & S3).
  rewrite !submitted_app, !submitted_user_events. cbn [query_eqb app]. split.
  - rewrite S1. apply map_zip_set. intros v r. now apply lookup_params_other.
  - eapply forall2_compose; [|exact (converted_rows pos _ _ EC)|exact S3].
    intros row row' params (d & Ed & ->) (songid & artistid & ->).
    exists d, songid, artistid. split.
    + unfold attr_or_null, row_attr. now rewrite CI.
    + now apply fact_row_converted.
Qed.

(** X4: in a run that returns, the lookups are made with the (song, artist,
    length) of the [NextSong] events in file order, and the fact rows follow
    the same order: each holds the converted [ts] of its event, then the
    event's userId and level, the two identifiers, and the event's
    sessionId, location and userAgent. *)
Theorem songplay_rows_in_file_order `{Env} :
  forall (filepath : string) (df : DataFrame) (s s' : session) (evs : list event),
    read_json filepath = Ok df ->
    process_log_file filepath s = (Ok tt, s') ->
    trace s' = trace s ++ EvRead filepath :: evs ->
    submitted song_select evs
    = map (lookup_params (columns df)) (next_song_rows df) /\
    Forall2 (fun row params =>
               exists d songid artistid,
                 to_datetime_ms (attr_or_null "ts" (columns df) row) = Ok d /\
                 params = [d; attr_or_null "userId" (columns df) row;
                           attr_or_null "level" (columns df) row;
                           songid; artistid;
                           attr_or_null "sessionId" (columns df) row;
                           attr_or_null "location" (columns df) row;
                           attr_or_null "userAgent" (columns df) row])
            (next_song_rows df) (submitted songplay_table_insert evs).
Proof.
  intros filepath df s s' evs ER E T.
  now apply (songplay_rows_of_run filepath df s s' evs).
Qed.

(** X4 on the sample log file, with the songs loaded. *)
Lemma songplay_rows_in_file_order_witness :
  submitted song_select
    (tl (skipn (List.length (trace Sample.loaded))
           (trace (snd (@process_log_file Sample.env Sample.log_file
                          Sample.loaded)))))
  = [[VStr "T1"; VStr "Artist1"; VFloat (361 # 2)];
     [VStr "T1"; VStr "Artist9"; VFloat (1806 # 10)]].
Proof.
  destruct (@songplay_rows_in_file_order Sample.env Sample.log_file
              Sample.log_frame Sample.loaded
              (snd (@process_log_file Sample.env Sample.log_file Sample.loaded))
              (tl (skipn (List.length (trace Sample.loaded))
                     (trace (snd (@process_log_file Sample.env Sample.log_file
                                    Sample.loaded))))))
    as [Lookups _].
  - reflexivity.
  - vm_compute. reflexivity.
  - vm_compute. reflexivity.
  - rewrite Lookups. vm_compute. reflexivity.
Defined.

Section SharedStart.
Context `{Env}.

Lemma conversions_agree (vs ds ds' : list value) :
  Forall2 (fun v d => to_datetime_ms v = Ok d) vs ds ->
  Forall2 (fun v d => to_datetime_ms v = Ok d) vs ds' ->
  ds = ds'.
Proof.
  intros F. revert ds'. induction F as [|v d vs ds E F IH]; intros ds' G;
    inversion G as [|? d' ? ds0 E' G']; subst; [reflexivity|].
  f_equal; [congruence|now apply IH].
Qed.

Lemma start_times (cols : list string) (rs : list (list value))
  (ps : list (list value)) :
  Forall2 (fun row params =>
             exists d songid artistid,
               to_datetime_ms (attr_or_null "ts" cols row) = Ok d /\
               params = [d; attr_or_null "userId" cols row;
                         attr_or_null "level" cols row; songid; artistid;
                         attr_or_null "sessionId" cols row;
                         attr_or_null "location" cols row;
                         attr_or_null "userAgent" cols row])
          rs ps ->
  Forall2 (fun v d => to_datetime_ms v = Ok d)
          (map (attr_or_null "ts" cols) rs) (map (cell 0) ps).
Proof.
  induction 1 as [|row params rs ps (d & songid & artistid & E & ->) F IH];
    cbn [map]; constructor; assumption.
Qed.

End SharedStart.

(** X5: the time table and the fact rows agree on [start_time].  In a run
    that returns, the first field of the fact rows, in order, is the
    [start_time] column of the time table built from the same file. *)
Theorem fact_and_time_rows_share_start_time `{Env} :
  forall (filepath : string) (df df' time_df : DataFrame) (s s' : session)
         (evs : list event),
    read_json filepath = Ok df ->
    filter_and_convert df = Ok df' ->
    build_time_df df' = Ok time_df ->
    process_log_file filepath s = (Ok tt, s') ->
    trace s' = trace s ++ EvRead filepath :: evs ->
    map (cell 0) (submitted songplay_table_insert evs)
    = map (cell 0) (rows time_df).
Proof.
  intros filepath df df' time_df s s' evs ER EF EB E T.
  destruct (songplay_rows_of_run filepath df s s' evs ER E T) as [_ Rows].
  apply start_times in Rows.
  destruct (time_df_of_frame df df' EF) as (ts & conv2 & G & F2 & B2).
  rewrite EB in B2. inversion B2; subst time_df. cbn [rows].
  rewrite map_map. cbn [time_row cell nth]. rewrite map_id.
  unfold get_column in G. cbn [columns rows] in G.
  destruct (column_index "ts" (columns df)) as [pos|] eqn:CI; [|discriminate].
  inversion G; subst ts.
  apply (conversions_agree (map (cell pos) (next_song_rows df))); [|exact F2].
  replace (map (cell pos) (next_song_rows df))
    with (map (attr_or_null "ts" (columns df)) (next_song_rows df)); [exact Rows|].
  apply map_ext. intros r. unfold attr_or_null, row_attr. now rewrite CI.
Qed.

(** X5 on the sample log file. *)
Lemma fact_and_time_rows_share_start_time_witness :
  map (cell 0)
    (submitted songplay_table_insert
       (tl (trace (snd (@process_log_file Sample.env Sample.log_file
                          Sample.fresh)))))
  = [VTimestamp 1541990258796000000; VTimestamp 1541990439796000000].
Proof.
  destruct (@filter_and_convert Sample.env Sample.log_frame) as [df'|] eqn:EF;
    [|vm_compute in EF; discriminate EF].
  destruct (build_time_df df') as [time_df|] eqn:EB.
  - rewrite (@fact_and_time_rows_share_start_time Sample.env Sample.log_file
               Sample.log_frame df' time_df Sample.fresh
               (snd (@process_log_file Sample.env Sample.log_file Sample.fresh))
               _ eq_refl EF EB).
    + vm_compute in EF. inversion EF; subst df'.
      vm_compute in EB. inversion EB; subst time_df. reflexivity.
    + vm_compute. reflexivity.
    + vm_compute. reflexivity.
  - vm_compute in EF. inversion EF; subst df'. vm_compute in EB. discriminate EB.
Defined.

(** ** Log files: the order of the calls *)

Section CallOrder.
Context `{Env}.

Lemma fetches_follow_selects_weaken (b : bool) (tr : list event) :
  fetches_follow_selects false tr = true -> fetches_follow_selects b tr = true.
Proof.
  destruct tr as [|e tr]; [reflexivity|].
  destruct e; cbn [fetches_follow_selects]; try (intros F; exact F).
  cbn [andb]. discriminate.
Qed.

Lemma fetches_follow_selects_users (b : bool) (users : list (list value))
  (tail : list event) :
  fetches_follow_selects false tail = true ->
  fetches_follow_selects b (map (EvExecute user_table_insert) users ++ tail) = true.
Proof.
  intros F. destruct users as [|u users]; cbn [map app].
  - now apply fetches_follow_selects_weaken.
  - cbn [fetches_follow_selects]. clear u.
    induction users as [|u users IH]; cbn [map app]; [exact F|exact IH].
Qed.

Lemma songplay_loop_order (labels : list string) (xs : list (list value)) r evs :
  loop_trace (songplay_steps labels) xs r evs ->
  fetches_follow_selects false evs = true /\
  submitted user_table_insert evs = [].
Proof.
  intros L. induction L as [|x xs e evs Hx|x xs r evs1 evs2 Hx L [F U]].
  - split; reflexivity.
  - destruct Hx as (songid & artistid & k & -> & _).
    destruct k as [|[|[|[|k]]]]; split; reflexivity.
  - destruct Hx as (songid & artistid & k & -> & K). rewrite (K eq_refl).
    cbn [firstn songplay_events app fetches_follow_selects andb].
    cbn [submitted query_eqb]. split; assumption.
Qed.

End CallOrder.

(** X6: [fetchone] is never called on a cursor that has not just run the
    song lookup.  In any run of [process_log_file], returning or not, every
    [fetchone] comes right after an [execute] of [song_select]. *)
Theorem every_fetch_follows_its_lookup `{Env} :
  forall (filepath : string) (s : session) (evs : list event),
    trace (snd (process_log_file filepath s)) = trace s ++ evs ->
    fetches_follow_selects false evs = true.
Proof.
  intros filepath s evs T.
  unfold process_log_file, bind, pd_read_json in T.
  destruct (read_json filepath) as [df|e].
  - destruct (process_log_frame df (log (EvRead filepath) s)) as [r s'] eqn:E.
    apply process_log_frame_steps in E
      as (users & labels & plays & r2 & evs2 & T' & L & _).
    cbn [snd] in T. rewrite T' in T. cbn [log trace] in T.
    rewrite <- app_assoc in T. apply app_inv_head in T. subst evs.
    cbn [app fetches_follow_selects].
    apply fetches_follow_selects_users. now apply (songplay_loop_order labels plays r2).
  - cbn [snd log trace] in T. apply app_inv_head in T. now subst evs.
Qed.

(** X6 on the sample log file. *)
Lemma every_fetch_follows_its_lookup_witness :
  fetches_follow_selects false
    (trace (snd (@process_log_file Sample.env Sample.log_file Sample.fresh)))
  = true.
Proof.
  apply (@every_fetch_follows_its_lookup Sample.env Sample.log_file Sample.fresh).
  reflexivity.
Defined.



(** ** Log files that cannot be loaded *)

Section LogDefects.
Context `{Env}.

Lemma process_log_frame_mapping_raises (df : DataFrame) (e : error) s :
  filter_and_convert df = Raise e -> process_log_frame df s = (Raise e, s).
Proof. intros E. unfold process_log_frame, bind, lift. now rewrite E. Qed.


End LogDefects.



(** X9: a log file without the [page] column, without the [ts] column, or
    without one of the five user columns is rejected with [KeyError] before
    anything is submitted. *)
Theorem log_file_missing_column_rejected `{Env} :
  forall (filepath : string) (df : DataFrame) (s : session),
    read_json filepath = Ok df ->
    (column_index "page" (columns df) = None ->
     process_log_file filepath s
     = (Raise (KeyError "page"), log (EvRead filepath) s)) /\
    (column_index "page" (columns df) <> None ->
     column_index "ts" (columns df) = None ->
     process_log_file filepath s
     = (Raise (KeyError "ts"), log (EvRead filepath) s)) /\
    (forall df' l,
        filter_and_convert df = Ok df' ->
        In l user_columns -> column_index l (columns df) = None ->
        exists l', In l' user_columns /\
                   process_log_file filepath s
                   = (Raise (KeyError l'), log (EvRead filepath) s)).
Proof.
  intros filepath df s ER.
  rewrite (process_log_file_frame filepath df s ER). split; [|split].
  - intros N. apply process_log_frame_mapping_raises.
    unfold filter_and_convert, get_column. now rewrite N.
  - intros P N. apply process_log_frame_mapping_raises.
    unfold filter_and_convert.
    destruct (get_column "page" df) as [page|e] eqn:EP.
    + cbn [obind]. rewrite (boolean_index_next_song _ _ EP).
      unfold get_column. cbn [columns]. now rewrite N.
    + unfold get_column in EP.
      destruct (column_index "page" (columns df)); [discriminate|contradiction].
  - intros df' l EF I N.
    destruct (filter_and_convert_shape _ _ EF) as [CC _].
    destruct (select_columns_missing user_columns df' l I) as (l' & I' & ES);
      [now rewrite CC|].
    exists l'. split; [exact I'|].
    unfold process_log_frame, bind, lift. rewrite EF.
    destruct (time_df_of_frame df df' EF) as (ts & converted & _ & _ & ->).
    now rewrite ES.
Qed.

(** X9 on a song file given to the log mapper. *)
Lemma log_file_missing_column_rejected_witness :
  @process_log_file Sample.env Sample.song_file Sample.fresh
  = (Raise (KeyError "page"), log (EvRead Sample.song_file) Sample.fresh).
Proof.
  destruct (@log_file_missing_column_rejected Sample.env Sample.song_file
              Sample.song_frame Sample.fresh eq_refl) as [P _].
  apply P. reflexivity.
Defined.

(** X10: a log file with nothing but other pages is read and left alone.
    When the frame has the [page], [ts] and user columns and no [NextSong]
    event, the run returns with no call on the cursor, whatever the storage
    would have answered. *)
Theorem no_next_song_no_cursor_call `{Env} :
  forall (filepath : string) (df : DataFrame) (s : session),
    read_json filepath = Ok df ->
    has_columns ("page" :: "ts" :: user_columns) df ->
    next_song_rows df = [] ->
    process_log_file filepath s = (Ok tt, log (EvRead filepath) s).
Proof.
  intros filepath df s ER C N.
  rewrite (process_log_file_frame filepath df s ER).
  destruct (filter_and_convert_ok df) as (df' & EF).
  { intros l I. apply C. simpl in I. simpl. tauto. }
  { rewrite N. constructor. }
  destruct (filter_and_convert_shape _ _ EF) as [CC Len].
  destruct (select_columns_ok user_columns df') as (user_df & ES).
  { rewrite CC. intros l I. apply C. simpl in I. simpl. tauto. }
  rewrite (process_log_frame_loops df df' user_df _ EF ES).
  apply select_columns_rows_length in ES.
  rewrite N in Len. cbn [length] in Len.
  destruct (rows df'); [|discriminate]. destruct (rows user_df); [|discriminate].
  reflexivity.
Qed.

(** X10 on the file of page views, against the storage that rejects rows. *)
Lemma no_next_song_no_cursor_call_witness :
  @process_log_file Faulty.env Faulty.home_file Faulty.fresh
  = (Ok tt, log (EvRead Faulty.home_file) Faulty.fresh).
Proof.
  apply (@no_next_song_no_cursor_call Faulty.env Faulty.home_file
           Faulty.home_frame Faulty.fresh).
  - reflexivity.
  - apply SampleFacts.has_columns_decide. reflexivity.
  - vm_compute. reflexivity.
Defined.

Section LateDefects.
Context `{Env}.


End LateDefects.



(** X12: a fetched row is unpacked into exactly two names.  When the lookup
    of a record hands back a row that is not empty and has not two fields,
    the record raises [ValueError] right after the fetch; its fact row is
    not submitted. *)
Theorem fetched_row_of_wrong_width_raises `{Env} :
  forall (labels : list string) (row fields : list value) (s s1 s2 : session),
    (forall l, In l ["song"; "artist"; "length"] -> column_index l labels <> None) ->
    cur_execute song_select (lookup_params labels row) s = (Ok tt, s1) ->
    cur_fetchone s1 = (Ok (Some fields), s2) ->
    List.length fields <> 0%nat -> List.length fields <> 2%nat ->
    songplay_record labels row s = (Raise ValueError, s2).
Proof.
  intros labels row fields s s1 s2 C E1 E2 N0 N2.
  unfold songplay_record, bind, lift.
  rewrite !attr_or_null_ok by (apply C; simpl; tauto).
  fold (lookup_params labels row). rewrite E1, E2.
  destruct fields as [|a [|b [|c fields]]]; try reflexivity; now contradiction.
Qed.

(** X12 on the first play of the sample log file, against the storage whose
    lookup hands back one field. *)
Lemma fetched_row_of_wrong_width_raises_witness :
  fst (@songplay_record Narrow.env Sample.log_labels
         (nth 0 (rows Sample.log_frame) []) Narrow.fresh)
  = Raise ValueError.
Proof.
  pose (s1 := snd (@cur_execute Narrow.env song_select
                     (lookup_params Sample.log_labels
                        (nth 0 (rows Sample.log_frame) [])) Narrow.fresh)).
  pose (s2 := snd (@cur_fetchone Narrow.env s1)).
  rewrite (@fetched_row_of_wrong_width_raises Narrow.env Sample.log_labels
             (nth 0 (rows Sample.log_frame) []) [VStr "SOA"] Narrow.fresh s1 s2).
  - reflexivity.
  - intros l [<-|[<-|[<-|[]]]]; vm_compute; discriminate.
  - reflexivity.
  - reflexivity.
  - discriminate.
  - discriminate.
Defined.

(** ** The orchestrator, on any run *)

Section AnyRun.
Context `{Env}.


Lemma messages_printed_app (a b : list event) :
  messages_printed (a ++ b) = messages_printed a ++ messages_printed b.
Proof.
  induction a as [|e a IH]; cbn [app messages_printed]; [reflexivity|].
  destruct e; cbn [app]; congruence.
Qed.

Lemma cursor_only_silent (seg : list event) :
  cursor_only seg ->
  files_read seg = [] /\ commits_issued seg = 0%nat /\ messages_printed seg = [].
Proof.
  induction 1 as [|e seg Ce C IH]; [repeat split|].
  destruct e; simpl in Ce; try discriminate; exact IH.
Qed.




Lemma units_trace_messages (i n : nat) (files : list string)
  (segs : list (list event)) :
  List.length segs = List.length files ->
  Forall cursor_only segs ->
  messages_printed (units_trace i n files segs)
  = map (fun j => FilesProcessed j n) (seq i (List.length files)).
Proof.
  revert i segs. induction files as [|f files IH]; intros i [|seg segs] L F;
    try discriminate; [reflexivity|].
  inversion F as [|? ? C F']; subst. injection L as L.
  destruct (cursor_only_silent seg C) as (_ & _ & Ms).
  cbn [units_trace List.length seq map app messages_printed].
  rewrite messages_printed_app, Ms. cbn [app messages_printed].
  now rewrite (IH (S i) segs L F').
Qed.

End AnyRun.



(** X14: a run of [process_data] that returns has printed the number of
    files found and then one progress line per file, numbered from 1 to that
    number, in order. *)
Theorem progress_lines_count_up `{Env} :
  forall (filepath : string) (func : string -> M unit) (s s' : session)
         (evs : list event),
    func = process_song_file \/ func = process_log_file ->
    process_data filepath func s = (Ok tt, s') ->
    trace s' = trace s ++ evs ->
    let n := List.length (walk_json filepath) in
    messages_printed evs
    = FilesFound n filepath :: map (fun i => FilesProcessed i n) (seq 1 n).
Proof.
  intros filepath func s s' evs Mp E T n.
  unfold process_data, bind, print in E. fold n in E.
  apply (for_enumerate_units func n (walk_json filepath) Mp) in E
    as (segs & L & F & T').
  rewrite T' in T. cbn [log trace] in T. rewrite <- app_assoc in T.
  apply app_inv_head in T. subst evs.
  cbn [app messages_printed]. f_equal.
  now apply units_trace_messages.
Qed.

(** X14 on the sample song files. *)
Lemma progress_lines_count_up_witness :
  messages_printed
    (trace (snd (@process_data Sample.env "data/song_data" process_song_file
                   Sample.fresh)))
  = [FilesFound 2 "data/song_data"; FilesProcessed 1 2; FilesProcessed 2 2].
Proof.
  apply (@progress_lines_count_up Sample.env "data/song_data" process_song_file
           Sample.fresh
           (snd (@process_data Sample.env "data/song_data" process_song_file
                   Sample.fresh))).
  - left. reflexivity.
  - vm_compute. reflexivity.
  - reflexivity.
Defined.


